(** * BrandAI: the run store, the request validation and the background
      workflow handler

    A shallow embedding of [backend/app/core/run_manager.py] and of the
    two entry points of [backend/app/api/routes.py] that touch it
    ([generate_ad] and [execute_workflow]), together with the properties
    the design document states about them.

    Conventions of the embedding.
    - Python objects live in a heap and are handled by reference: a
      [RunModel] instance is a location, [RunManager._runs] maps run ids to
      locations, and every method reads and writes the instance through
      its location.  A reference handed to a caller therefore aliases the
      record held by the manager, as it does in Python.
    - [datetime.now] and [uuid.uuid4] are readings of the environment: the
      world counts the readings taken so far; the identifier produced by
      the n-th draw is given by the section variable [uuid4].
    - Strings are sequences of code points below 256.
    - The [float] progress percentage is a rational number (the
      comparisons made by [min] and [max] are those of the source). *)

From Stdlib Require Import ZArith QArith Strings.String Strings.Ascii List.
From stdpp Require Import base option gmap strings list pretty.

Local Open Scope Z_scope.
Local Open Scope string_scope.

(** ** Python built-ins used by the source *)

Module Py.

(** [b < a] on progress values. *)
Definition Qltb (x y : Q) : bool := negb (Qle_bool y x).

(** [min(a, b)]: the first argument unless the second is smaller. *)
Definition min (a b : Q) : Q := if Qltb b a then b else a.

(** [max(a, b)]: the first argument unless the second is larger. *)
Definition max (a b : Q) : Q := if Qltb a b then b else a.

(** [str.isspace] on one code point below 256: the ASCII controls
    TAB, LF, VT, FF, CR, FS, GS, RS, US, the space, NEL and NBSP. *)
Definition isspace (c : ascii) : bool :=
  let n := nat_of_ascii c in
  ((9 <=? n) && (n <=? 13) || (28 <=? n) && (n <=? 32)
   || (n =? 133) || (n =? 160))%nat.

Fixpoint lstrip (s : string) : string :=
  match s with
  | String c s' => if isspace c then lstrip s' else s
  | EmptyString => EmptyString
  end.

Definition rstrip (s : string) : string :=
  String.rev (lstrip (String.rev s)).

(** [s.strip()] *)
Definition strip (s : string) : string := rstrip (lstrip s).

(** [len(s)] *)
Definition len (s : string) : Z := Z.of_nat (String.length s).

(** Truthiness of an optional dictionary: [None] and [{}] are false. *)
Definition truthy_dict {V} (d : option (gmap string V)) : bool :=
  match d with
  | Some m => negb (bool_decide (m = ∅))
  | None => false
  end.

End Py.

(** ** Data model ([app.models.run]) *)

(** Modelled from the spec: the [RunStatus] enumeration of
    [app/models/run.py], which is not part of the sources at hand.  The
    members are the seven statuses of the data model; [GENERATION] is the
    member the tests name for the generating status. *)
Inductive RunStatus :=
  | PENDING | BRAND_KIT | GENERATION | CRITIQUE | REFINEMENT
  | COMPLETED | FAILED.

#[global] Instance RunStatus_eq_dec : EqDecision RunStatus.
Proof. solve_decision. Defined.

(** Opaque structured payloads (metadata, brand kit, critique result). *)
Abbreviation Dict := (gmap string string).

(** A reading of [datetime.now(timezone.utc)]. *)
Abbreviation datetime := nat.

(** Modelled from the spec: the [RunStage] model of [app/models/run.py]
    (stage record: name, status, start time, completion time, metadata,
    error text). *)
Module Stage.
Record RunStage := mkRunStage {
  stage_name : string;
  status : RunStatus;
  started_at : option datetime;
  completed_at : option datetime;
  metadata : Dict;
  error : option string
}.
End Stage.
Abbreviation RunStage := Stage.RunStage.
Abbreviation mkRunStage := Stage.mkRunStage.

(** Modelled from the spec: the [RunModel] model of [app/models/run.py],
    with the defaults the data model gives for the fields [create_run]
    does not pass (no current stage, empty stage history, empty results,
    retry count 0, no completion time). *)
Record RunModel := mkRunModel {
  run_id : string;
  prompt : string;
  media_type : string;
  brand_website_url : option string;
  status : RunStatus;
  progress : Q;
  current_stage : option string;
  stages : gmap string RunStage;
  brand_kit_data : option Dict;
  generated_ads : list string;
  critique_results : option Dict;
  final_ad_path : option string;
  error_message : option string;
  retry_count : Z;
  created_at : datetime;
  updated_at : datetime;
  completed_at : option datetime
}.

(** Attribute assignments [run.f = v], one per attribute the manager
    writes. *)
Definition set_status (v : RunStatus) (r : RunModel) : RunModel :=
  mkRunModel (run_id r) (prompt r) (media_type r) (brand_website_url r)
    v (progress r) (current_stage r) (stages r) (brand_kit_data r)
    (generated_ads r) (critique_results r) (final_ad_path r)
    (error_message r) (retry_count r) (created_at r) (updated_at r)
    (completed_at r).

Definition set_progress (v : Q) (r : RunModel) : RunModel :=
  mkRunModel (run_id r) (prompt r) (media_type r) (brand_website_url r)
    (status r) v (current_stage r) (stages r) (brand_kit_data r)
    (generated_ads r) (critique_results r) (final_ad_path r)
    (error_message r) (retry_count r) (created_at r) (updated_at r)
    (completed_at r).

Definition set_current_stage (v : option string) (r : RunModel) : RunModel :=
  mkRunModel (run_id r) (prompt r) (media_type r) (brand_website_url r)
    (status r) (progress r) v (stages r) (brand_kit_data r)
    (generated_ads r) (critique_results r) (final_ad_path r)
    (error_message r) (retry_count r) (created_at r) (updated_at r)
    (completed_at r).

Definition set_stages (v : gmap string RunStage) (r : RunModel) : RunModel :=
  mkRunModel (run_id r) (prompt r) (media_type r) (brand_website_url r)
    (status r) (progress r) (current_stage r) v (brand_kit_data r)
    (generated_ads r) (critique_results r) (final_ad_path r)
    (error_message r) (retry_count r) (created_at r) (updated_at r)
    (completed_at r).

Definition set_brand_kit_data (v : option Dict) (r : RunModel) : RunModel :=
  mkRunModel (run_id r) (prompt r) (media_type r) (brand_website_url r)
    (status r) (progress r) (current_stage r) (stages r) v
    (generated_ads r) (critique_results r) (final_ad_path r)
    (error_message r) (retry_count r) (created_at r) (updated_at r)
    (completed_at r).

Definition set_generated_ads (v : list string) (r : RunModel) : RunModel :=
  mkRunModel (run_id r) (prompt r) (media_type r) (brand_website_url r)
    (status r) (progress r) (current_stage r) (stages r) (brand_kit_data r)
    v (critique_results r) (final_ad_path r)
    (error_message r) (retry_count r) (created_at r) (updated_at r)
    (completed_at r).

Definition set_critique_results (v : option Dict) (r : RunModel) : RunModel :=
  mkRunModel (run_id r) (prompt r) (media_type r) (brand_website_url r)
    (status r) (progress r) (current_stage r) (stages r) (brand_kit_data r)
    (generated_ads r) v (final_ad_path r)
    (error_message r) (retry_count r) (created_at r) (updated_at r)
    (completed_at r).

Definition set_final_ad_path (v : option string) (r : RunModel) : RunModel :=
  mkRunModel (run_id r) (prompt r) (media_type r) (brand_website_url r)
    (status r) (progress r) (current_stage r) (stages r) (brand_kit_data r)
    (generated_ads r) (critique_results r) v
    (error_message r) (retry_count r) (created_at r) (updated_at r)
    (completed_at r).

Definition set_error_message (v : option string) (r : RunModel) : RunModel :=
  mkRunModel (run_id r) (prompt r) (media_type r) (brand_website_url r)
    (status r) (progress r) (current_stage r) (stages r) (brand_kit_data r)
    (generated_ads r) (critique_results r) (final_ad_path r)
    v (retry_count r) (created_at r) (updated_at r)
    (completed_at r).

Definition set_retry_count (v : Z) (r : RunModel) : RunModel :=
  mkRunModel (run_id r) (prompt r) (media_type r) (brand_website_url r)
    (status r) (progress r) (current_stage r) (stages r) (brand_kit_data r)
    (generated_ads r) (critique_results r) (final_ad_path r)
    (error_message r) v (created_at r) (updated_at r)
    (completed_at r).

Definition set_updated_at (v : datetime) (r : RunModel) : RunModel :=
  mkRunModel (run_id r) (prompt r) (media_type r) (brand_website_url r)
    (status r) (progress r) (current_stage r) (stages r) (brand_kit_data r)
    (generated_ads r) (critique_results r) (final_ad_path r)
    (error_message r) (retry_count r) (created_at r) v
    (completed_at r).

Definition set_completed_at (v : option datetime) (r : RunModel) : RunModel :=
  mkRunModel (run_id r) (prompt r) (media_type r) (brand_website_url r)
    (status r) (progress r) (current_stage r) (stages r) (brand_kit_data r)
    (generated_ads r) (critique_results r) (final_ad_path r)
    (error_message r) (retry_count r) (created_at r) (updated_at r)
    v.

(** ** The world: object heap, clock, entropy, and the manager's table *)

(** A reference to a [RunModel] instance. *)
Abbreviation ref := positive.

Record World := mkWorld {
  heap : gmap ref RunModel;
  clock : nat;
  draws : nat;
  _runs : gmap string ref
}.

(** [RunManager()] in a fresh process. *)
Definition RunManager_init : World := mkWorld ∅ 0 0 ∅.

(** [datetime.now(timezone.utc)] *)
Definition datetime_now (w : World) : datetime * World :=
  (clock w, mkWorld (heap w) (S (clock w)) (draws w) (_runs w)).

(** Attribute write through a reference: [obj.f = v] with [obj] at [l]. *)
Definition setattr (l : ref) (f : RunModel → RunModel) (w : World) : World :=
  mkWorld (alter f l (heap w)) (clock w) (draws w) (_runs w).

(** Reading an instance through a reference. *)
Definition deref (w : World) (l : ref) : option RunModel := heap w !! l.

(** ** [RunManager] ([app/core/run_manager.py]) *)

Section RunManager.

(** The identifier produced by the n-th call of [uuid.uuid4] in this
    process, as a string. *)
Variable uuid4 : nat → string.

(** [_generate_run_id]: [str(uuid.uuid4())] *)
Definition _generate_run_id (w : World) : string * World :=
  (uuid4 (draws w), mkWorld (heap w) (clock w) (S (draws w)) (_runs w)).

(** Construction of a [RunModel] with the arguments [create_run] gives
    and the defaults of the model; the instance is allocated at a
    location not yet in use. *)
Definition RunModel_new (run_id prompt media_type : string)
    (brand_website_url : option string) (st : RunStatus) (pr : Q)
    (w : World) : ref * World :=
  let (created, w) := datetime_now w in
  let (updated, w) := datetime_now w in
  let l := fresh (dom (heap w)) in
  let run := mkRunModel run_id prompt media_type brand_website_url
               st pr None ∅ None [] None None None 0 created updated None in
  (l, mkWorld (<[l := run]> (heap w)) (clock w) (draws w) (_runs w)).

(** [create_run]: returns the (reference to the) created instance. *)
Definition create_run (prompt media_type : string)
    (brand_website_url : option string) (w : World) : ref * World :=
  let (run_id, w) := _generate_run_id w in
  let (run, w) :=
    RunModel_new run_id prompt media_type brand_website_url PENDING 0%Q w in
  (run, mkWorld (heap w) (clock w) (draws w) (<[run_id := run]> (_runs w))).

(** [get_run]: [self._runs.get(run_id)], the instance itself or [None]. *)
Definition get_run (run_id : string) (w : World) : option ref :=
  _runs w !! run_id.

Definition update_status (run_id : string) (st : RunStatus)
    (progress : option Q) (current_stage error_message : option string)
    (w : World) : bool * World :=
  match _runs w !! run_id with
  | None => (false, w)
  | Some run =>
      let w := setattr run (set_status st) w in
      let (now, w) := datetime_now w in
      let w := setattr run (set_updated_at now) w in
      let w := match progress with
               | Some p =>
                   setattr run (set_progress (Py.max 0 (Py.min 100 p))) w
               | None => w
               end in
      let w := match current_stage with
               | Some s => setattr run (set_current_stage (Some s)) w
               | None => w
               end in
      let w := match error_message with
               | Some e => setattr run (set_error_message (Some e)) w
               | None => w
               end in
      (true, w)
  end.

Definition start_stage (run_id stage_name : string)
    (metadata : option Dict) (w : World) : bool * World :=
  match _runs w !! run_id with
  | None => (false, w)
  | Some run =>
      let (now, w) := datetime_now w in
      let stage :=
        mkRunStage stage_name PENDING (Some now) None
          (default ∅ metadata) None in
      let w := setattr run
                 (λ r, set_stages (<[stage_name := stage]> (stages r)) r) w in
      let w := setattr run (set_current_stage (Some stage_name)) w in
      let (now, w) := datetime_now w in
      let w := setattr run (set_updated_at now) w in
      (true, w)
  end.

(** The body of [if stage_name in run.stages: ...] of [complete_stage],
    on the stage dictionary of the run. *)
Definition complete_stage_record (stage_name : string) (now : datetime)
    (metadata : option Dict) (stages : gmap string RunStage)
    : gmap string RunStage :=
  match stages !! stage_name with
  | Some stage =>
      <[stage_name :=
          mkRunStage (Stage.stage_name stage) COMPLETED
            (Stage.started_at stage) (Some now)
            (if Py.truthy_dict metadata
             then default ∅ metadata ∪ Stage.metadata stage
             else Stage.metadata stage)
            (Stage.error stage)]> stages
  | None => stages
  end.

Definition complete_stage (run_id stage_name : string)
    (metadata : option Dict) (w : World) : bool * World :=
  match _runs w !! run_id with
  | None => (false, w)
  | Some run =>
      let has_stage :=
        match deref w run with
        | Some r => bool_decide (is_Some (stages r !! stage_name))
        | None => false
        end in
      let w :=
        if has_stage then
          let (now, w) := datetime_now w in
          setattr run
            (λ r, set_stages
                    (complete_stage_record stage_name now metadata (stages r))
                    r) w
        else w in
      let (now, w) := datetime_now w in
      let w := setattr run (set_updated_at now) w in
      (true, w)
  end.

(** The body of [if stage_name in run.stages: ...] of [fail_stage]. *)
Definition fail_stage_record (stage_name : string) (now : datetime)
    (err : string) (metadata : option Dict) (stages : gmap string RunStage)
    : gmap string RunStage :=
  match stages !! stage_name with
  | Some stage =>
      <[stage_name :=
          mkRunStage (Stage.stage_name stage) FAILED
            (Stage.started_at stage) (Some now)
            (if Py.truthy_dict metadata
             then default ∅ metadata ∪ Stage.metadata stage
             else Stage.metadata stage)
            (Some err)]> stages
  | None => stages
  end.

Definition fail_stage (run_id stage_name err : string)
    (metadata : option Dict) (w : World) : bool * World :=
  match _runs w !! run_id with
  | None => (false, w)
  | Some run =>
      let has_stage :=
        match deref w run with
        | Some r => bool_decide (is_Some (stages r !! stage_name))
        | None => false
        end in
      let w :=
        if has_stage then
          let (now, w) := datetime_now w in
          setattr run
            (λ r, set_stages
                    (fail_stage_record stage_name now err metadata (stages r))
                    r) w
        else w in
      let w := setattr run (set_status FAILED) w in
      let w := setattr run (set_error_message (Some err)) w in
      let (now, w) := datetime_now w in
      let w := setattr run (set_updated_at now) w in
      (true, w)
  end.

Definition update_run_data (run_id : string)
    (brand_kit_data : option Dict) (generated_ads : option (list string))
    (critique_results : option Dict) (final_ad_path : option string)
    (w : World) : bool * World :=
  match _runs w !! run_id with
  | None => (false, w)
  | Some run =>
      let w := match brand_kit_data with
               | Some d => setattr run (set_brand_kit_data (Some d)) w
               | None => w
               end in
      let w := match generated_ads with
               | Some a => setattr run (set_generated_ads a) w
               | None => w
               end in
      let w := match critique_results with
               | Some d => setattr run (set_critique_results (Some d)) w
               | None => w
               end in
      let w := match final_ad_path with
               | Some p => setattr run (set_final_ad_path (Some p)) w
               | None => w
               end in
      let (now, w) := datetime_now w in
      let w := setattr run (set_updated_at now) w in
      (true, w)
  end.

Definition increment_retry (run_id : string) (w : World) : bool * World :=
  match _runs w !! run_id with
  | None => (false, w)
  | Some run =>
      let w := setattr run (λ r, set_retry_count (retry_count r + 1) r) w in
      let (now, w) := datetime_now w in
      let w := setattr run (set_updated_at now) w in
      (true, w)
  end.

Definition complete_run (run_id : string) (success : bool) (w : World)
    : bool * World :=
  match _runs w !! run_id with
  | None => (false, w)
  | Some run =>
      let w := setattr run
                 (set_status (if success then COMPLETED else FAILED)) w in
      let w := setattr run (set_progress 100) w in
      let (now, w) := datetime_now w in
      let w := setattr run (set_completed_at (Some now)) w in
      let (now, w) := datetime_now w in
      let w := setattr run (set_updated_at now) w in
      (true, w)
  end.

Definition delete_run (run_id : string) (w : World) : bool * World :=
  match _runs w !! run_id with
  | Some _ =>
      (true, mkWorld (heap w) (clock w) (draws w) (delete run_id (_runs w)))
  | None => (false, w)
  end.

(** [list_runs]: a new list of the instances in [_runs], those with the
    given status when one is given.  (The order of the list, insertion
    order in Python, is not modelled.) *)
Definition list_runs (st : option RunStatus) (w : World) : list ref :=
  let runs := (map_to_list (_runs w)).*2 in
  match st with
  | Some s =>
      List.filter
        (λ r, match deref w r with
              | Some run => bool_decide (status run = s)
              | None => false
              end) runs
  | None => runs
  end.

End RunManager.

(** The attribute [f] of the run registered under [run_id], read through
    the manager. *)
Definition run_attr {A} (f : RunModel → A) (run_id : string) (w : World)
    : option A :=
  r ← _runs w !! run_id; f <$> deref w r.

(** A status that ends a run. *)
Definition terminal (st : RunStatus) : bool :=
  match st with COMPLETED | FAILED => true | _ => false end.

(** ** Histories of store operations *)

(** A call of a mutating method of the manager, with its arguments. *)
Inductive Op :=
  | CreateRun (prompt media_type : string) (brand_website_url : option string)
  | UpdateStatus (run_id : string) (st : RunStatus) (progress : option Q)
      (current_stage error_message : option string)
  | StartStage (run_id stage_name : string) (metadata : option Dict)
  | CompleteStage (run_id stage_name : string) (metadata : option Dict)
  | FailStage (run_id stage_name err : string) (metadata : option Dict)
  | UpdateRunData (run_id : string) (brand_kit_data : option Dict)
      (generated_ads : option (list string)) (critique_results : option Dict)
      (final_ad_path : option string)
  | IncrementRetry (run_id : string)
  | CompleteRun (run_id : string) (success : bool)
  | DeleteRun (run_id : string).

Section Histories.

Variable uuid4 : nat → string.

(** The world after one call. *)
Definition step (op : Op) (w : World) : World :=
  match op with
  | CreateRun p m u => (create_run uuid4 p m u w).2
  | UpdateStatus i st p c e => (update_status i st p c e w).2
  | StartStage i n md => (start_stage i n md w).2
  | CompleteStage i n md => (complete_stage i n md w).2
  | FailStage i n e md => (fail_stage i n e md w).2
  | UpdateRunData i b g c f => (update_run_data i b g c f w).2
  | IncrementRetry i => (increment_retry i w).2
  | CompleteRun i s => (complete_run i s w).2
  | DeleteRun i => (delete_run i w).2
  end.

(** The world after a sequence of calls, first call first. *)
Definition run_ops (ops : list Op) (w : World) : World :=
  fold_left (λ w op, step op w) ops w.

(** The identifiers [create_run] has returned along a history that
    starts in [w], first call first. *)
Fixpoint issued (ops : list Op) (w : World) : list string :=
  match ops with
  | [] => []
  | op :: ops' =>
      match op with
      | CreateRun _ _ _ => [uuid4 (draws w)]
      | _ => []
      end ++ issued ops' (step op w)
  end.

(** The instance [create_run] builds in world [w]. *)
Definition created (p m : string) (u : option string) (w : World) : RunModel :=
  mkRunModel (uuid4 (draws w)) p m u PENDING 0 None ∅ None [] None None None
    0 (clock w) (S (clock w)) None.

(** Whether the run registered under [i] is the instance [l]. *)
Definition targets (w : World) (i : string) (l : ref) : bool :=
  bool_decide (_runs w !! i = Some l).

(** Status, completion time and progress of the instance [l], read as
    [r] before the step, after it. *)
Definition effect (op : Op) (w : World) (l : ref) (r : RunModel)
    : RunStatus * option datetime * Q :=
  match op with
  | UpdateStatus i st p _ _ =>
      if targets w i l
      then (st, completed_at r,
            from_option (λ p0, Py.max 0 (Py.min 100 p0)) (progress r) p)
      else (status r, completed_at r, progress r)
  | FailStage i _ _ _ =>
      if targets w i l then (FAILED, completed_at r, progress r)
      else (status r, completed_at r, progress r)
  | CompleteRun i b =>
      if targets w i l
      then (if b then COMPLETED else FAILED, Some (clock w), 100%Q)
      else (status r, completed_at r, progress r)
  | _ => (status r, completed_at r, progress r)
  end.

(** What holds of every registered run in a world the store can reach:
    its reference is allocated, the instance carries the identifier it is
    registered under, and its progress lies in [0, 100]. *)
Definition store_inv (w : World) : Prop :=
  ∀ id l, _runs w !! id = Some l →
    ∃ r, deref w l = Some r
         ∧ run_id r = id
         ∧ (0 <= progress r <= 100)%Q.

(** Whether the run registered under [i] has its completion time set. *)
Definition completed (i : string) (w : World) : bool :=
  match run_attr completed_at i w with
  | Some (Some _) => true
  | _ => false
  end.

(** Whether a call breaks, for the run registered under [id], the link
    between its status and its completion time.  Only a call on that run
    can, and only when the store holds the run: while the completion time
    is not set, a [fail_stage] or an [update_status] to a status that ends
    the run; once it is set, an [update_status] to a status that does not
    end the run or that gives a progress below 100. *)
Definition breaks_completion (id : string) (op : Op) (w : World) : bool :=
  match op with
  | FailStage i _ _ _ =>
      bool_decide (i = id) && bool_decide (is_Some (_runs w !! id))
      && negb (completed id w)
  | UpdateStatus i st p _ _ =>
      bool_decide (i = id) && bool_decide (is_Some (_runs w !! id))
      && (if completed id w
          then negb (terminal st) || from_option (λ p0, Py.Qltb p0 100) false p
          else terminal st)
  | _ => false
  end.

(** The calls that keep the link for the run registered under [id]. *)
Definition disciplined_op (id : string) (op : Op) (w : World) : bool :=
  negb (breaks_completion id op w).

Fixpoint disciplined (id : string) (ops : list Op) (w : World) : bool :=
  match ops with
  | [] => true
  | op :: ops' => disciplined_op id op w && disciplined id ops' (step op w)
  end.

Definition completion_inv (id : string) (w : World) : Prop :=
  ∀ l, _runs w !! id = Some l →
    ∃ r, deref w l = Some r
         ∧ (terminal (status r) = true ↔ is_Some (completed_at r))
         ∧ (is_Some (completed_at r) → progress r = 100%Q).

End Histories.

(** ** Decision policy ([app.core.orchestrator.should_continue]) *)

(** The part of the workflow state the decision reads. *)
Record WorkflowState := mkWorkflowState {
  refinement_strategy : option string;
  ws_retry_count : Z;
  ws_max_retries : Z
}.

(** Modelled from the spec: [should_continue] of [app/core/orchestrator.py],
    which is not part of the sources at hand (only its test is).  The rule
    table, in order: the retry ceiling gives ["end"]; an absent strategy
    gives ["end"]; otherwise the strategy is passed through. *)
Definition should_continue (state : WorkflowState) : string :=
  if (ws_max_retries state <=? ws_retry_count state)%Z then "end"
  else match refinement_strategy state with
       | None => "end"
       | Some strategy => strategy
       end.

(** ** Exceptions ([app/core/exceptions.py]) and HTTP results *)

Inductive Exception :=
  | ValidationError (message : string)          (* status_code 400 *)
  | FileUploadError (message : string)          (* status_code 400 *)
  | AttributeError (message : string)
  | OtherException (class message : string).

(** [FileUploadError(message)]: the constructor prefixes the message. *)
Definition new_FileUploadError (message : string) : Exception :=
  FileUploadError ("File upload error: " ++ message).

(** [str(e)] *)
Definition str_exc (e : Exception) : string :=
  match e with
  | ValidationError m | FileUploadError m | AttributeError m => m
  | OtherException _ m => m
  end.

(** Modelled from the spec: the [MediaType] enumeration of
    [app/models/request.py] (media kind [image] or [video]). *)
Inductive MediaType := image | video.

Definition MediaType_value (m : MediaType) : string :=
  match m with image => "image" | video => "video" end.

(** Parsing of the form field into the enumeration, by value. *)
Definition MediaType_parse (s : string) : option MediaType :=
  if bool_decide (s = "image") then Some image
  else if bool_decide (s = "video") then Some video
  else None.

(** The arguments of the background task [execute_workflow]. *)
Record Task := mkTask {
  task_run_id : string;
  task_prompt : string;
  task_media_type : string;
  task_brand_website_url : option string;
  task_logo_path : option string;
  task_product_path : option string
}.

(** What the [/generate] endpoint answers. *)
Inductive Response :=
  | HTTPException (status_code : Z) (detail : string)
  | RequestValidationError       (* 422, raised by the form layer *)
  | GenerationResponse (run_id : string) (st : RunStatus)
      (estimated_time : Z).

(** The names an instance of [RunManager] has, besides those every
    object inherits: the two attributes set by [__init__] and the methods
    of the class body. *)
Definition RunManager_attributes : list string :=
  [ "_runs"; "_lock"; "__init__"; "create_run"; "get_run"; "update_status";
    "start_stage"; "complete_stage"; "fail_stage"; "update_run_data";
    "increment_retry"; "complete_run"; "delete_run"; "list_runs";
    "_generate_run_id" ].

(** Attribute lookup [run_manager.<name>]. *)
Definition RunManager_getattr (name : string) : Exception + string :=
  if bool_decide (name ∈ RunManager_attributes) then inr name
  else inl (AttributeError
              ("'RunManager' object has no attribute '" ++ name ++ "'")).

(** ** Routes ([app/api/routes.py]) *)

Section Routes.

Variable uuid4 : nat → string.

(** An uploaded file, and the outcome of the block that checks and
    stores it ([if logo: try: ... except Exception as e]): the stored
    path, or the text of the exception the block caught. *)
Variable UploadFile : Type.
Variable save_upload : string → UploadFile → string + string.

(** The workflow engine [orchestrator.execute], which is not part of the
    sources at hand: it works on the world and returns its result
    dictionary or raises. *)
Variable orchestrator_execute :
  string → string → string → option string → option string →
  option string → Z → World → (Exception + Dict) * World.

(** A call [run_manager.<name>(args)] made by name; only reached for a
    name the instance has. *)
Variable call_method :
  string → list string → World → (Exception + unit) * World.

Definition upload_block (asset_type : string) (file : option UploadFile)
    : Exception + option string :=
  match file with
  | None => inr None
  | Some f =>
      match save_upload asset_type f with
      | inl path => inr (Some path)
      | inr e =>
          inl (new_FileUploadError
                 ("Error saving " ++ asset_type ++ ": " ++ e))
      end
  end.

(** The two checks under [# Validate inputs]: [None] when both pass. *)
Definition validate_inputs (prompt : string) (media_type : MediaType + string)
    : option Exception :=
  if bool_decide (prompt = "") || (Py.len (Py.strip prompt) <? 10)%Z
  then Some (ValidationError "Prompt must be at least 10 characters long")
  else
    let media_type_str :=
      match media_type with
      | inl m => MediaType_value m
      | inr s => s
      end in
    if negb (bool_decide (media_type_str ∈ ["image"; "video"]))
    then Some (ValidationError "media_type must be 'image' or 'video'")
    else None.

(** The [try] block of [generate_ad]. *)
Definition generate_ad_try (prompt : string) (media_type : MediaType + string)
    (brand_website_url : option string) (logo product : option UploadFile)
    (w : World) : (Exception + Response * Task) * World :=
  match validate_inputs prompt media_type with
  | Some e => (inl e, w)
  | None =>
      let media_type_str :=
        match media_type with
        | inl m => MediaType_value m
        | inr s => s
        end in
      match upload_block "logo" logo with
      | inl e => (inl e, w)
      | inr logo_path =>
          match upload_block "product" product with
          | inl e => (inl e, w)
          | inr product_path =>
              let (run, w) :=
                create_run uuid4 prompt media_type_str brand_website_url w in
              (* run_id = run.run_id *)
              let run_id := default "" ((λ r, r.(run_id)) <$> deref w run) in
              let estimated_time :=
                if bool_decide (media_type_str = "image") then 120 else 300 in
              (inr (GenerationResponse run_id PENDING estimated_time,
                    mkTask run_id prompt media_type_str brand_website_url
                      logo_path product_path), w)
          end
      end
  end.

(** [generate_ad]: the answer, the background task it queued if any, and
    the world. *)
Definition generate_ad (prompt : string) (media_type : MediaType + string)
    (brand_website_url : option string) (logo product : option UploadFile)
    (w : World) : Response * option Task * World :=
  match generate_ad_try prompt media_type brand_website_url logo product w with
  | (inr (response, task), w) => (response, Some task, w)
  | (inl (ValidationError message), w) => (HTTPException 400 message, None, w)
  | (inl (FileUploadError message), w) => (HTTPException 400 message, None, w)
  | (inl e, w) =>
      (HTTPException 500 ("Internal server error: " ++ str_exc e), None, w)
  end.

(** The endpoint [POST /generate] as the framework serves it: the form
    constraints of the signature ([min_length=10], [max_length=1000] on
    [prompt], [media_type] a member of [MediaType]) are checked before
    the body runs. *)
Definition post_generate (prompt media_type : string)
    (brand_website_url : option string) (logo product : option UploadFile)
    (w : World) : Response * option Task * World :=
  if (Py.len prompt <? 10)%Z || (1000 <? Py.len prompt)%Z
  then (RequestValidationError, None, w)
  else match MediaType_parse media_type with
       | None => (RequestValidationError, None, w)
       | Some m =>
           generate_ad prompt (inl m) brand_website_url logo product w
       end.

(** [execute_workflow]: [inr tt] when it returns, [inl e] when [e]
    escapes it. *)
Definition execute_workflow (run_id prompt media_type : string)
    (brand_website_url logo_path product_path : option string)
    (w : World) : (Exception + unit) * World :=
  match orchestrator_execute run_id prompt media_type brand_website_url
          logo_path product_path 3 w with
  | (inr result, w) => (inr tt, w)
  | (inl e, w) =>
      (* except Exception as e: run_manager.fail_run(run_id, str(e)) *)
      match RunManager_getattr "fail_run" with
      | inl exc => (inl exc, w)
      | inr method => call_method method [run_id; str_exc e] w
      end
  end.

End Routes.

(** ** Status and result routes ([app/api/routes.py]) *)

(** [RunNotFoundError(run_id)]: the message the constructor builds. *)
Definition RunNotFoundError_message (run_id : string) : string :=
  "Run with ID '" ++ run_id ++ "' not found".

(** [run.run_id], where a parameter of the same name is in scope. *)
Definition run_id_of (r : RunModel) : string := run_id r.

(** The fields [get_status] passes to [StatusResponse]. *)
Record StatusResponse := mkStatusResponse {
  sr_run_id : string;
  sr_status : RunStatus;
  sr_progress : Q;
  sr_current_stage : option string;
  sr_message : option string;
  sr_created_at : datetime;
  sr_updated_at : datetime
}.

Section ResultRoutes.

(** The critique report model [CritiqueReport] of [app/models/response.py]
    and its construction from the stored dictionary, which answers [None]
    where the constructor raises; the text [f"{run.status}"] of a
    status. *)
Variable CritiqueReport : Type.
Variable new_CritiqueReport : Dict → option CritiqueReport.
Variable format_RunStatus : RunStatus → string.

(** The fields [get_result] passes to [FinalResponse]. *)
Record FinalResponse := mkFinalResponse {
  fr_run_id : string;
  fr_status : RunStatus;
  fr_success : bool;
  fr_critique_report : option CritiqueReport;
  fr_retry_count : Z;
  fr_completed_at : datetime
}.

(** [get_status]: the answer, or the [HTTPException] it raises.  (A
    registered reference is always allocated; the last branch stands for
    the handler of any other exception.) *)
Definition get_status (run_id : string) (w : World)
    : Response + StatusResponse :=
  match get_run run_id w with
  | None => inl (HTTPException 404 (RunNotFoundError_message run_id))
  | Some run =>
      match deref w run with
      | Some r =>
          inr (mkStatusResponse (run_id_of r) (status r) (progress r)
                 (current_stage r)
                 (if bool_decide (status r = FAILED) then error_message r
                  else None)
                 (created_at r) (updated_at r))
      | None => inl (HTTPException 500 "Internal server error: ")
      end
  end.

(** [get_result]: the answer, or the [HTTPException] it raises. *)
Definition get_result (run_id : string) (w : World)
    : Response + FinalResponse :=
  match get_run run_id w with
  | None => inl (HTTPException 404 (RunNotFoundError_message run_id))
  | Some run =>
      match deref w run with
      | Some r =>
          if negb (bool_decide (status r = COMPLETED))
          then inl (HTTPException 400
                      ("Run " ++ run_id
                       ++ " is not completed yet. Current status: "
                       ++ format_RunStatus (status r)))
          else
            let critique_report :=
              if Py.truthy_dict (critique_results r)
              then new_CritiqueReport (default ∅ (critique_results r))
              else None in
            inr (mkFinalResponse (run_id_of r) (status r) true
                   critique_report (retry_count r)
                   (default (updated_at r) (completed_at r)))
      | None => inl (HTTPException 500 "Internal server error: ")
      end
  end.

End ResultRoutes.

(** ** What a step does to the rest of an instance *)

(** The run a call names ([create_run] names none). *)
Definition op_run_id (op : Op) : option string :=
  match op with
  | CreateRun _ _ _ => None
  | UpdateStatus i _ _ _ _ | StartStage i _ _ | CompleteStage i _ _
  | FailStage i _ _ _ | UpdateRunData i _ _ _ _ | IncrementRetry i
  | CompleteRun i _ | DeleteRun i => Some i
  end.

(** Stage history and retry count of the instance [l], read as [r] before
    the step, after it. *)
Definition effect_frame (op : Op) (w : World) (l : ref) (r : RunModel)
    : gmap string RunStage * Z :=
  match op with
  | StartStage i n md =>
      if targets w i l
      then (<[n := mkRunStage n PENDING (Some (clock w)) None
                     (default ∅ md) None]> (stages r),
            retry_count r)
      else (stages r, retry_count r)
  | CompleteStage i n md =>
      if targets w i l
      then (complete_stage_record n (clock w) md (stages r), retry_count r)
      else (stages r, retry_count r)
  | FailStage i n e md =>
      if targets w i l
      then (fail_stage_record n (clock w) e md (stages r), retry_count r)
      else (stages r, retry_count r)
  | IncrementRetry i =>
      if targets w i l then (stages r, retry_count r + 1)
      else (stages r, retry_count r)
  | _ => (stages r, retry_count r)
  end.

(** A stage record as the store writes it under the name [n]: it carries
    that name and a start time, and is pending with no completion time,
    or completed with one, or failed with one and with an error text. *)
Definition stage_wf (n : string) (s : RunStage) : Prop :=
  Stage.stage_name s = n
  ∧ is_Some (Stage.started_at s)
  ∧ (Stage.status s = PENDING ∧ Stage.completed_at s = None
     ∨ Stage.status s = COMPLETED ∧ is_Some (Stage.completed_at s)
     ∨ Stage.status s = FAILED ∧ is_Some (Stage.completed_at s)
       ∧ is_Some (Stage.error s)).

(** [n] calls of [increment_retry] on the run [run_id]. *)
Definition increment_retries (n : nat) (run_id : string) (w : World) : World :=
  Nat.iter n (λ w, (increment_retry run_id w).2) w.

(** The answers that reject a request for its prompt or its media kind. *)
Definition validation_failure (resp : Response) : Prop :=
  resp = RequestValidationError
  ∨ resp = HTTPException 400 "Prompt must be at least 10 characters long"
  ∨ resp = HTTPException 400 "media_type must be 'image' or 'video'".

(** The requests that pass: the prompt keeps at least 10 characters once
    the white space around it is removed and has at most 1000, and the
    media kind is [image] or [video]. *)
Definition acceptable (prompt media_type : string) : Prop :=
  10 <= Py.len (Py.strip prompt)
  ∧ Py.len prompt <= 1000
  ∧ (media_type = "image" ∨ media_type = "video").

(** A world with one run, used to try the statements below: the run
    created first in a fresh process has identifier [pretty 0] and lives
    at the first location. *)
Definition one_run : World :=
  (create_run pretty "Test ad generation" "image" None RunManager_init).2.

(** * Properties *)

(** ** The heap and the clock *)

Lemma deref_setattr_eq w l f r :
  deref w l = Some r → deref (setattr l f w) l = Some (f r).
Proof.
  unfold deref, setattr; simpl; intros H.
  by rewrite lookup_alter_eq, H.
Qed.

Lemma deref_setattr_ne w l l' f :
  l ≠ l' → deref (setattr l f w) l' = deref w l'.
Proof. unfold deref, setattr; simpl; intros H. by rewrite lookup_alter_ne. Qed.

Lemma lookup_alter_write (h : gmap ref RunModel) l f r :
  h !! l = Some r → alter f l h !! l = Some (f r).
Proof. intros H. by rewrite lookup_alter_eq, H. Qed.

(** Reading a run after a chain of writes to it: each write applies its
    assignment to what was read before. *)
Ltac deref_write :=
  repeat first
    [ eassumption
    | apply deref_setattr_eq
    | apply lookup_alter_write
    | progress (change (deref (mkWorld ?h ?c ?d ?m) ?l) with (h !! l); simpl)
    | progress (change (heap ?w !! ?l) with (deref w l)) ].

(** Reading another object after a chain of writes to [run]. *)
Ltac deref_other :=
  intros; unfold deref, setattr; simpl;
  by rewrite ?lookup_alter_ne by congruence.

(** The test [stage_name in run.stages] of [complete_stage] and
    [fail_stage]. *)
Ltac case_has_stage :=
  repeat match goal with
  | H : deref ?w ?l = Some _
    |- context [match deref ?w ?l with Some _ => _ | None => _ end] =>
      rewrite H
  | |- context [match deref ?w ?l with Some _ => _ | None => _ end] =>
      destruct (deref w l)
  | |- context [bool_decide ?P] => destruct (bool_decide P)
  end.

Ltac split_all := repeat match goal with |- _ ∧ _ => split end.

(** ** The clamp of [update_status] *)

Lemma Qltb_true x y : Py.Qltb x y = true ↔ (x < y)%Q.
Proof.
  unfold Py.Qltb. rewrite negb_true_iff.
  destruct (Qle_bool y x) eqn:E.
  - apply Qle_bool_iff in E. split; [done | intros H].
    exfalso. by apply (Qlt_not_le x y).
  - split; [intros _ | done].
    apply Qnot_le_lt. intros H. apply Qle_bool_iff in H. congruence.
Qed.

Lemma Qltb_false x y : Py.Qltb x y = false ↔ (y <= x)%Q.
Proof.
  unfold Py.Qltb. rewrite negb_false_iff. apply Qle_bool_iff.
Qed.

Lemma clamp_range p :
  (0 <= Py.max 0 (Py.min 100 p) <= 100)%Q.
Proof.
  unfold Py.max, Py.min.
  destruct (Py.Qltb p 100) eqn:E1.
  - destruct (Py.Qltb 0 p) eqn:E2.
    + apply Qltb_true in E1, E2. split; by apply Qlt_le_weak.
    + split; [apply Qle_refl | done].
  - destruct (Py.Qltb 0 100) eqn:E2; [| done].
    split; [done | apply Qle_refl].
Qed.

Lemma clamp_inside p :
  (0 <= p <= 100)%Q → (Py.max 0 (Py.min 100 p) == p)%Q.
Proof.
  intros [H0 H1]. unfold Py.max, Py.min.
  destruct (Py.Qltb p 100) eqn:E1.
  - destruct (Py.Qltb 0 p) eqn:E2; [reflexivity |].
    apply Qltb_false in E2. by apply Qle_antisym.
  - apply Qltb_false in E1.
    replace (Py.Qltb 0 100) with true by reflexivity.
    by apply Qle_antisym.
Qed.

Lemma clamp_below p : (p < 0)%Q → Py.max 0 (Py.min 100 p) = 0%Q.
Proof.
  intros H. unfold Py.max, Py.min.
  assert (Py.Qltb p 100 = true) as ->.
  { apply Qltb_true. eapply Qlt_trans; [exact H | done]. }
  assert (Py.Qltb 0 p = false) as ->; [| done].
  apply Qltb_false. by apply Qlt_le_weak.
Qed.

Lemma clamp_above p : (100 < p)%Q → Py.max 0 (Py.min 100 p) = 100%Q.
Proof.
  intros H. unfold Py.max, Py.min.
  assert (Py.Qltb p 100 = false) as ->; [| done].
  apply Qltb_false. by apply Qlt_le_weak.
Qed.

(** ** Decision policy *)

(** C1. The decision is a function of (strategy, retry_count, max_retries):
    it is ["end"] whenever [retry_count >= max_retries], whatever the
    strategy; otherwise ["end"] for an absent strategy; otherwise the
    strategy itself.  In particular the six rows of the decision table
    hold. *)
Theorem should_continue_table :
  (∀ strategy retry max,
     max <= retry →
     should_continue (mkWorkflowState strategy retry max) = "end")
  ∧ (∀ retry max,
       retry < max → should_continue (mkWorkflowState None retry max) = "end")
  ∧ (∀ s retry max,
       retry < max → should_continue (mkWorkflowState (Some s) retry max) = s)
  ∧ should_continue (mkWorkflowState (Some "approve") 0 3) = "approve"
  ∧ should_continue (mkWorkflowState (Some "reject") 0 3) = "reject"
  ∧ should_continue (mkWorkflowState (Some "regenerate") 0 3) = "regenerate"
  ∧ should_continue (mkWorkflowState (Some "regenerate") 3 3) = "end"
  ∧ should_continue (mkWorkflowState (Some "enhance") 0 3) = "enhance"
  ∧ should_continue (mkWorkflowState None 0 3) = "end".
Proof.
  repeat split; try reflexivity; unfold should_continue; simpl; intros.
  - by rewrite (proj2 (Z.leb_le _ _)).
  - by rewrite (proj2 (Z.leb_gt _ _)).
  - by rewrite (proj2 (Z.leb_gt _ _)).
Qed.

(** ** Single operations on an existing run *)

Lemma one_run_registered :
  _runs one_run !! "0" = Some 1%positive
  ∧ deref one_run 1%positive =
      Some (mkRunModel "0" "Test ad generation" "image" None PENDING 0 None ∅
              None [] None None None 0 0%nat 1%nat None).
Proof. split; reflexivity. Qed.

(** C4. On an existing run, [update_status] answers [True], sets the given
    status, stores a supplied progress clamped to [0, 100], leaves each
    of progress, current stage and error message as it was when it is not
    supplied, and changes no other field but the last-updated time (retry
    count, stage history, result fields, creation time, completion time
    and the input snapshot are unchanged); other runs are untouched. *)
Theorem update_status_spec w id run r st p cs e :
  _runs w !! id = Some run →
  deref w run = Some r →
  ∃ w' r',
    update_status id st p cs e w = (true, w')
    ∧ _runs w' = _runs w
    ∧ deref w' run = Some r'
    ∧ status r' = st
    ∧ match p with
      | Some p0 =>
          progress r' = Py.max 0 (Py.min 100 p0)
          ∧ (0 <= progress r' <= 100)%Q
          ∧ ((0 <= p0 <= 100)%Q → (progress r' == p0)%Q)
          ∧ ((p0 < 0)%Q → progress r' = 0%Q)
          ∧ ((100 < p0)%Q → progress r' = 100%Q)
      | None => progress r' = progress r
      end
    ∧ current_stage r' = from_option Some (current_stage r) cs
    ∧ error_message r' = from_option Some (error_message r) e
    ∧ retry_count r' = retry_count r
    ∧ stages r' = stages r
    ∧ brand_kit_data r' = brand_kit_data r
    ∧ generated_ads r' = generated_ads r
    ∧ critique_results r' = critique_results r
    ∧ final_ad_path r' = final_ad_path r
    ∧ created_at r' = created_at r
    ∧ completed_at r' = completed_at r
    ∧ (run_id r', prompt r', media_type r', brand_website_url r')
      = (run_id r, prompt r, media_type r, brand_website_url r)
    ∧ (∀ l, l ≠ run → deref w' l = deref w l).
Proof.
  intros Hid Hr. unfold update_status. rewrite Hid.
  destruct p as [p0|], cs, e; simpl;
    (eexists _, _; split; [reflexivity |]; split; [reflexivity |];
     split; [deref_write |]); simpl;
    split_all; try reflexivity;
    auto using clamp_inside, clamp_below, clamp_above;
    try apply clamp_range; deref_other.
Qed.

Lemma update_status_spec_witness :
  ∃ w' r',
    update_status "0" GENERATION (Some 25%Q) (Some "generation") None one_run
      = (true, w')
    ∧ deref w' 1%positive = Some r'
    ∧ status r' = GENERATION ∧ progress r' = 25%Q
    ∧ current_stage r' = Some "generation" ∧ error_message r' = None
    ∧ retry_count r' = 0.
Proof.
  destruct (update_status_spec one_run "0" 1%positive _ GENERATION
              (Some 25%Q) (Some "generation") None
              (proj1 one_run_registered) (proj2 one_run_registered))
    as (w' & r' & H1 & _ & H3 & H4 & (H5 & _) & H6 & H7 & H8 & _).
  exists w', r'. repeat split; assumption.
Defined.

(** C5. On an existing run, [fail_stage] answers [True] and moves the whole
    run to [FAILED] with the given error message, whether or not the stage
    was started; progress stays at its last value, and retry count, result
    fields and completion time are not modified.  A stage record under
    that name, if there is one, is marked failed with the same error. *)
Theorem fail_stage_spec w id run r name err md :
  _runs w !! id = Some run →
  deref w run = Some r →
  ∃ w' r',
    fail_stage id name err md w = (true, w')
    ∧ _runs w' = _runs w
    ∧ deref w' run = Some r'
    ∧ status r' = FAILED
    ∧ error_message r' = Some err
    ∧ progress r' = progress r
    ∧ retry_count r' = retry_count r
    ∧ brand_kit_data r' = brand_kit_data r
    ∧ generated_ads r' = generated_ads r
    ∧ critique_results r' = critique_results r
    ∧ final_ad_path r' = final_ad_path r
    ∧ completed_at r' = completed_at r
    ∧ (∀ stage, stages r !! name = Some stage →
         ∃ stage', stages r' !! name = Some stage'
                   ∧ Stage.status stage' = FAILED
                   ∧ Stage.error stage' = Some err)
    ∧ (∀ l, l ≠ run → deref w' l = deref w l).
Proof.
  intros Hid Hr. unfold fail_stage. rewrite Hid, Hr.
  destruct (stages r !! name) as [stage|] eqn:Hs.
  - rewrite bool_decide_true by eauto. simpl.
    eexists _, _; split; [reflexivity |]; split; [reflexivity |].
    split; [deref_write |]. simpl.
    split_all; try reflexivity; [| deref_other].
    intros stage0 [= <-]. unfold fail_stage_record. rewrite Hs.
    rewrite lookup_insert_eq. eauto.
  - rewrite bool_decide_false by (intros [? ?]; congruence). simpl.
    eexists _, _; split; [reflexivity |]; split; [reflexivity |].
    split; [deref_write |]. simpl.
    split_all; try reflexivity; [| deref_other].
    intros stage0 [=].
Qed.

Lemma fail_stage_spec_witness :
  ∃ w' r',
    fail_stage "0" "generation" "backend unavailable" None one_run = (true, w')
    ∧ deref w' 1%positive = Some r'
    ∧ status r' = FAILED
    ∧ error_message r' = Some "backend unavailable"
    ∧ progress r' = 0%Q ∧ retry_count r' = 0.
Proof.
  destruct (fail_stage_spec one_run "0" 1%positive _ "generation"
              "backend unavailable" None
              (proj1 one_run_registered) (proj2 one_run_registered))
    as (w' & r' & H1 & _ & H3 & H4 & H5 & H6 & H7 & _).
  exists w', r'. repeat split; assumption.
Defined.

(** C10. On an existing run and a stage name with no stage record,
    [complete_stage] and [fail_stage] both answer [True].
    [complete_stage] changes nothing of the run but its last-updated time
    (the stage history in particular is as before); [fail_stage] moves the
    run to [FAILED] with the given error message, changes the last-updated
    time and nothing else, and creates no stage record for that name. *)
Theorem unstarted_stage_spec w id run r name err md :
  _runs w !! id = Some run →
  deref w run = Some r →
  stages r !! name = None →
  (∃ w',
     complete_stage id name md w = (true, w')
     ∧ _runs w' = _runs w
     ∧ deref w' run = Some (set_updated_at (clock w) r)
     ∧ stages (set_updated_at (clock w) r) = stages r
     ∧ (∀ l, l ≠ run → deref w' l = deref w l))
  ∧ (∃ w' r',
       fail_stage id name err md w = (true, w')
       ∧ _runs w' = _runs w
       ∧ deref w' run = Some r'
       ∧ r' = set_updated_at (clock w)
                (set_error_message (Some err) (set_status FAILED r))
       ∧ status r' = FAILED
       ∧ error_message r' = Some err
       ∧ stages r' = stages r
       ∧ stages r' !! name = None
       ∧ (∀ l, l ≠ run → deref w' l = deref w l)).
Proof.
  intros Hid Hr Hs. split.
  - unfold complete_stage. rewrite Hid, Hr.
    rewrite bool_decide_false by (intros [? ?]; congruence). simpl.
    eexists; split; [reflexivity |]; split; [reflexivity |].
    split; [deref_write |]. split; [reflexivity | deref_other].
  - unfold fail_stage. rewrite Hid, Hr.
    rewrite bool_decide_false by (intros [? ?]; congruence). simpl.
    eexists _, _; split; [reflexivity |]; split; [reflexivity |].
    split; [deref_write |]. simpl.
    split_all; try reflexivity; [done | deref_other].
Qed.

Lemma unstarted_stage_spec_witness :
  (∃ w', complete_stage "0" "critique" None one_run = (true, w')
         ∧ (stages <$> deref w' 1%positive) = Some ∅)
  ∧ (∃ w' r',
       fail_stage "0" "critique" "no artifact" None one_run = (true, w')
              ∧ deref w' 1%positive = Some r'
              ∧ status r' = FAILED
              ∧ error_message r' = Some "no artifact"
              ∧ stages r' !! "critique" = None).
Proof.
  destruct (unstarted_stage_spec one_run "0" 1%positive _ "critique"
              "no artifact" None
              (proj1 one_run_registered) (proj2 one_run_registered)
              (lookup_empty _))
    as [(w1 & H1 & _ & H2 & _)
        (w2 & r2 & G1 & _ & G2 & _ & G3 & G4 & _ & G5 & _)].
  split.
  - exists w1. split; [exact H1 |]. by rewrite H2.
  - exists w2, r2. repeat split; assumption.
Defined.

(** ** One step of a history *)

Section Steps.

Variable uuid4 : nat → string.

Lemma create_run_eq p m u w :
  create_run uuid4 p m u w =
  (fresh (dom (heap w)),
   mkWorld (<[fresh (dom (heap w)) := created uuid4 p m u w]> (heap w))
     (S (S (clock w))) (S (draws w))
     (<[uuid4 (draws w) := fresh (dom (heap w))]> (_runs w))).
Proof. reflexivity. Qed.

Lemma fresh_unallocated w : deref w (fresh (dom (heap w))) = None.
Proof. apply not_elem_of_dom, is_fresh. Qed.

(** The registry after a step: only [create_run] and [delete_run]
    change it. *)
Lemma step_runs op w :
  _runs (step uuid4 op w) =
  match op with
  | CreateRun _ _ _ => <[uuid4 (draws w) := fresh (dom (heap w))]> (_runs w)
  | DeleteRun i => delete i (_runs w)
  | _ => _runs w
  end.
Proof.
  destruct op as [p m u | i st p cs e | i n md | i n md | i n e md
                 | i b g c f | i | i s | i]; simpl; try reflexivity;
    unfold update_status, start_stage, complete_stage, fail_stage,
      update_run_data, increment_retry, complete_run, delete_run;
    destruct (_runs w !! i) as [run|] eqn:E; try reflexivity.
  - by destruct p, cs, e.
  - by case_has_stage.
  - by case_has_stage.
  - by destruct b, g, c, f.
  - simpl. symmetry. by apply delete_id.
Qed.

(** The number of identifiers drawn: one more after [create_run]. *)
Lemma step_draws op w :
  draws (step uuid4 op w) =
  match op with CreateRun _ _ _ => S (draws w) | _ => draws w end.
Proof.
  destruct op as [p m u | i st p cs e | i n md | i n md | i n e md
                 | i b g c f | i | i s | i]; simpl; try reflexivity;
    unfold update_status, start_stage, complete_stage, fail_stage,
      update_run_data, increment_retry, complete_run, delete_run;
    destruct (_runs w !! i) as [run|] eqn:E; try reflexivity.
  - by destruct p, cs, e.
  - by case_has_stage.
  - by case_has_stage.
  - by destruct b, g, c, f.
Qed.

(** What a step does to an allocated instance [l]: it stays allocated
    and keeps its identifier; its status, completion time and progress
    are those of [effect], which changes them only when the step is an
    [update_status], a [fail_stage] or a [complete_run] on [l]. *)
Lemma step_instance op w l r :
  deref w l = Some r →
  ∃ r',
    deref (step uuid4 op w) l = Some r'
    ∧ run_id r' = run_id r
    ∧ status r' = (effect op w l r).1.1
    ∧ completed_at r' = (effect op w l r).1.2
    ∧ progress r' = (effect op w l r).2.
Proof.
  intros Hr. unfold effect.
  destruct op as [p m u | i st p cs e | i n md | i n md | i n e md
                 | i b g c f | i | i s | i]; unfold step.
  - (* create_run *)
    exists r. rewrite create_run_eq. simpl. split; [| done].
    unfold deref; simpl. rewrite lookup_insert_ne; [done |].
    intros E. pose proof (fresh_unallocated w) as F. rewrite E in F. congruence.
  - unfold update_status, targets.
    destruct (_runs w !! i) as [run|] eqn:Hi;
      [| rewrite bool_decide_false by done; by eauto 10].
    destruct (decide (l = run)) as [->|Hl].
    + rewrite bool_decide_true by done.
      destruct p as [p0|], cs, e; simpl;
        (eexists; split; [deref_write |]); done.
    + rewrite bool_decide_false by congruence.
      exists r. split; [| done].
      destruct p, cs, e; simpl; rewrite <- Hr; deref_other.
  - unfold start_stage.
    destruct (_runs w !! i) as [run|] eqn:Hi; [| by eauto 10].
    destruct (decide (l = run)) as [->|Hl].
    + simpl. eexists; split; [deref_write |]; done.
    + exists r. split; [| done]. simpl. rewrite <- Hr; deref_other.
  - unfold complete_stage.
    destruct (_runs w !! i) as [run|] eqn:Hi; [| by eauto 10].
    destruct (decide (l = run)) as [->|Hl].
    + case_has_stage; simpl; (eexists; split; [deref_write |]); done.
    + exists r. split; [| done].
      case_has_stage; simpl; rewrite <- Hr; deref_other.
  - unfold fail_stage, targets.
    destruct (_runs w !! i) as [run|] eqn:Hi;
      [| rewrite bool_decide_false by done; by eauto 10].
    destruct (decide (l = run)) as [->|Hl].
    + rewrite bool_decide_true by done.
      case_has_stage; simpl; (eexists; split; [deref_write |]); done.
    + rewrite bool_decide_false by congruence.
      exists r. split; [| done].
      case_has_stage; simpl; rewrite <- Hr; deref_other.
  - unfold update_run_data.
    destruct (_runs w !! i) as [run|] eqn:Hi; [| by eauto 10].
    destruct (decide (l = run)) as [->|Hl].
    + destruct b, g, c, f; simpl; (eexists; split; [deref_write |]); done.
    + exists r. split; [| done].
      destruct b, g, c, f; simpl; rewrite <- Hr; deref_other.
  - unfold increment_retry.
    destruct (_runs w !! i) as [run|] eqn:Hi; [| by eauto 10].
    destruct (decide (l = run)) as [->|Hl].
    + simpl. eexists; split; [deref_write |]; done.
    + exists r. split; [| done]. simpl. rewrite <- Hr; deref_other.
  - unfold complete_run, targets.
    destruct (_runs w !! i) as [run|] eqn:Hi;
      [| rewrite bool_decide_false by done; by eauto 10].
    destruct (decide (l = run)) as [->|Hl].
    + rewrite bool_decide_true by done.
      simpl. eexists; split; [deref_write |]; done.
    + rewrite bool_decide_false by congruence.
      exists r. split; [| done]. simpl. rewrite <- Hr; deref_other.
  - unfold delete_run.
    destruct (_runs w !! i); simpl; eauto 10.
Qed.

End Steps.

(** ** Invariants of the store along a history *)

Section Reachable.

Variable uuid4 : nat → string.

Lemma run_ops_snoc ops op w :
  run_ops uuid4 (ops ++ [op])%list w = step uuid4 op (run_ops uuid4 ops w).
Proof. unfold run_ops. by rewrite fold_left_app. Qed.

Lemma store_inv_kept op w id l :
  store_inv w →
  _runs w !! id = Some l →
  ∃ r, deref (step uuid4 op w) l = Some r
       ∧ run_id r = id
       ∧ (0 <= progress r <= 100)%Q.
Proof.
  intros Inv Hl.
  destruct (Inv id l Hl) as (r & Hr & Hid & Hp).
  destruct (step_instance uuid4 op w l r Hr)
    as (r' & Hr' & Hid' & _ & _ & Hp').
  exists r'. split; [done |]. split; [congruence |].
  unfold effect in Hp'. rewrite Hp'.
  destruct op as [p m u | i st p cs e | i n md | i n md | i n e md
                 | i b g c f | i | i s | i]; simpl; try done;
    destruct (targets w i l); simpl; try done.
  destruct p; [apply clamp_range | done].
Qed.

Lemma store_inv_step op w :
  store_inv w → store_inv (step uuid4 op w).
Proof.
  intros Inv id l Hl. rewrite step_runs in Hl.
  destruct op as [p m u | i st p cs e | i n md | i n md | i n e md
                 | i b g c f | i | i s | i];
    try (by apply store_inv_kept).
  - destruct (decide (uuid4 (draws w) = id)) as [<-|Hne].
    + rewrite lookup_insert_eq in Hl. injection Hl as <-.
      exists (created uuid4 p m u w). split; [| done].
      unfold step. rewrite create_run_eq. unfold deref; simpl.
      by rewrite lookup_insert_eq.
    + rewrite lookup_insert_ne in Hl by done. by apply store_inv_kept.
  - apply lookup_delete_Some in Hl as [_ Hl]. by apply store_inv_kept.
Qed.

Lemma store_inv_reachable ops :
  store_inv (run_ops uuid4 ops RunManager_init).
Proof.
  induction ops as [| op ops IH] using rev_ind.
  - intros id l Hl. simpl in Hl. by rewrite lookup_empty in Hl.
  - rewrite run_ops_snoc. by apply store_inv_step.
Qed.

End Reachable.

(** On a world that satisfies [store_inv], a call names the instance of
    a registered run exactly when it names the run. *)
Lemma targets_registered w id l i :
  store_inv w →
  _runs w !! id = Some l →
  targets w i l = bool_decide (i = id).
Proof.
  intros Inv Hl. unfold targets.
  destruct (decide (i = id)) as [-> | Hne].
  - by rewrite !bool_decide_true.
  - rewrite (bool_decide_false (i = id)) by done.
    apply bool_decide_false. intros Hi.
    destruct (Inv i l Hi) as (ri & Hri & Hidi & _).
    destruct (Inv id l Hl) as (r & Hr & Hid & _). congruence.
Qed.

(** ** Identifiers *)

Section Identifiers.

Variable uuid4 : nat → string.

Lemma run_ops_cons op ops w :
  run_ops uuid4 (op :: ops) w = run_ops uuid4 ops (step uuid4 op w).
Proof. reflexivity. Qed.

Lemma draws_mono ops w : (draws w ≤ draws (run_ops uuid4 ops w))%nat.
Proof.
  revert w. induction ops as [| op ops IH]; intros w; [done |].
  rewrite run_ops_cons. etrans; [| apply IH].
  rewrite step_draws. destruct op; lia.
Qed.

(** Every identifier issued along a history is a draw made during it. *)
Lemma issued_draws ops w id :
  id ∈ issued uuid4 ops w →
  ∃ k, (draws w ≤ k < draws (run_ops uuid4 ops w))%nat ∧ id = uuid4 k.
Proof.
  revert w. induction ops as [| op ops IH]; intros w Hin; simpl in Hin.
  - by apply elem_of_nil in Hin.
  - rewrite run_ops_cons.
    apply elem_of_app in Hin as [Hin | Hin].
    + destruct op; try by apply elem_of_nil in Hin.
      apply list_elem_of_singleton in Hin. exists (draws w). split; [| done].
      split; [done |]. eapply Nat.lt_le_trans; [| apply draws_mono].
      rewrite step_draws. lia.
    + destruct (IH _ Hin) as (k & [Hk1 Hk2] & ->). exists k.
      split; [| done]. split; [| done].
      etrans; [| exact Hk1]. rewrite step_draws. destruct op; lia.
Qed.




End Identifiers.




(** ** Status, completion time and progress *)

Section Completion.

Variable uuid4 : nat → string.

Lemma completed_registered w id l r :
  _runs w !! id = Some l →
  deref w l = Some r →
  completed id w = bool_decide (is_Some (completed_at r)).
Proof.
  intros Hl Hr. unfold completed, run_attr. rewrite Hl. simpl. rewrite Hr.
  simpl. destruct (completed_at r).
  - by rewrite bool_decide_true by eauto.
  - by rewrite bool_decide_false by (by intros [? ?]).
Qed.

Lemma completion_inv_kept op w id l :
  store_inv w →
  completion_inv id w →
  disciplined_op id op w = true →
  _runs w !! id = Some l →
  ∃ r, deref (step uuid4 op w) l = Some r
       ∧ (terminal (status r) = true ↔ is_Some (completed_at r))
       ∧ (is_Some (completed_at r) → progress r = 100%Q).
Proof.
  intros SInv Inv Hop Hl.
  destruct (Inv l Hl) as (r & Hr & Hiff & Hp).
  destruct (step_instance uuid4 op w l r Hr)
    as (r' & Hr' & _ & Hs' & Hc' & Hp').
  exists r'. split; [done |].
  pose proof (λ i, targets_registered w id l i SInv Hl) as Ht.
  pose proof (completed_registered w id l r Hl Hr) as Hco.
  unfold disciplined_op, breaks_completion in Hop.
  apply negb_true_iff in Hop.
  unfold effect in Hs', Hc', Hp'.
  destruct op as [p m u | i st p cs e | i n md | i n md | i n e md
                 | i b g c f | i | i s | i]; simpl in Hs', Hc', Hp';
    try (by rewrite Hs', Hc', Hp').
  - rewrite Ht in Hs', Hc', Hp'.
    destruct (bool_decide (i = id)); simpl in *;
      rewrite Hs', Hc', Hp'; [| done].
    rewrite (bool_decide_true (is_Some _)) in Hop by eauto. simpl in Hop.
    rewrite Hco in Hop.
    destruct (completed_at r) as [t|].
    + rewrite bool_decide_true in Hop by eauto.
      apply orb_false_iff in Hop as [Hst Hpr].
      apply negb_false_iff in Hst.
      split; [split; [by eauto | done] |]. intros _.
      destruct p as [p0|]; simpl in *; [| by eauto].
      unfold Py.max, Py.min. by rewrite Hpr.
    + rewrite bool_decide_false in Hop by (by intros [? ?]).
      rewrite Hop. split; [split; [done | by intros [? ?]] | by intros [? ?]].
  - rewrite Ht in Hs', Hc', Hp'.
    destruct (bool_decide (i = id)); simpl in *;
      rewrite Hs', Hc', Hp'; [| done].
    rewrite (bool_decide_true (is_Some _)) in Hop by eauto. simpl in Hop.
    rewrite Hco in Hop. apply negb_false_iff, bool_decide_eq_true in Hop.
    split; [done | by eauto].
  - rewrite Ht in Hs', Hc', Hp'.
    destruct (bool_decide (i = id)); simpl in *;
      rewrite Hs', Hc', Hp'; [| done].
    split; [| done]. split; [by eauto | by destruct s].
Qed.

Lemma completion_inv_step op w id :
  store_inv w →
  completion_inv id w →
  disciplined_op id op w = true →
  completion_inv id (step uuid4 op w).
Proof.
  intros SInv Inv Hop l Hl. rewrite step_runs in Hl.
  destruct op as [p m u | i st p cs e | i n md | i n md | i n e md
                 | i b g c f | i | i s | i];
    try (by apply (completion_inv_kept _ _ id)).
  - destruct (decide (uuid4 (draws w) = id)) as [<-|Hne].
    + rewrite lookup_insert_eq in Hl. injection Hl as <-.
      exists (created uuid4 p m u w).
      split; [| split; [| by intros [? ?]]].
      * unfold step. rewrite create_run_eq. unfold deref; simpl.
        by rewrite lookup_insert_eq.
      * simpl. split; [done | by intros [? ?]].
    + rewrite lookup_insert_ne in Hl by done. by apply (completion_inv_kept _ _ id).
  - apply lookup_delete_Some in Hl as [_ Hl]. by apply (completion_inv_kept _ _ id).
Qed.

Lemma completion_inv_run ops w id :
  store_inv w →
  completion_inv id w →
  disciplined uuid4 id ops w = true →
  completion_inv id (run_ops uuid4 ops w).
Proof.
  revert w. induction ops as [| op ops IH]; intros w SInv Inv Hd; [done |].
  simpl in Hd. apply andb_true_iff in Hd as [Hop Hd].
  rewrite run_ops_cons.
  apply IH; [by apply store_inv_step | by apply completion_inv_step | done].
Qed.

Lemma completion_inv_init id : completion_inv id RunManager_init.
Proof. intros l Hl. simpl in Hl. by rewrite lookup_empty in Hl. Qed.

(** Reading a registered run through the manager. *)
Lemma run_attr_Some {A} (f : RunModel → A) id w a :
  run_attr f id w = Some a ↔
  ∃ l r, _runs w !! id = Some l ∧ deref w l = Some r ∧ f r = a.
Proof.
  unfold run_attr. split.
  - intros H. destruct (_runs w !! id) as [l|]; [| done]. simpl in H.
    destruct (deref w l) as [r|] eqn:Hr; [| done]. simpl in H.
    injection H as <-. by exists l, r.
  - intros (l & r & -> & Hr & <-). simpl. by rewrite Hr.
Qed.

End Completion.

(** C3 (as the store has it).  Take a run, and a history in which no call
    on that run breaks the link between its status and its completion
    time: no [fail_stage] on it and no [update_status] giving it a status
    that ends the run while its completion time is not set, and no
    [update_status] giving it a status that does not end the run, or a
    progress below 100, once it is set; calls on other runs are free.
    Then the run has status completed or failed exactly when its
    completion time is set, and its progress is then 100.
    [complete_run] sets the three together (status completed on success,
    failed otherwise); [update_status] sets the status it is given and
    never touches the completion time; [fail_stage] moves the run to
    failed and leaves its progress at its last value. *)
Theorem completion_time_spec (uuid4 : nat → string) :
  (∀ ops id r,
     disciplined uuid4 id ops RunManager_init = true →
     run_attr (λ r, r) id (run_ops uuid4 ops RunManager_init) = Some r →
     (terminal (status r) = true ↔ is_Some (completed_at r))
     ∧ (is_Some (completed_at r) → progress r = 100%Q))
  ∧ (∀ w id run r success,
       _runs w !! id = Some run → deref w run = Some r →
       ∃ w' r',
         complete_run id success w = (true, w')
         ∧ deref w' run = Some r'
         ∧ status r' = (if success then COMPLETED else FAILED)
         ∧ progress r' = 100%Q
         ∧ is_Some (completed_at r'))
  ∧ (∀ w id run r st p cs e,
       _runs w !! id = Some run → deref w run = Some r →
       ∃ w' r',
         update_status id st p cs e w = (true, w')
         ∧ deref w' run = Some r'
         ∧ status r' = st
         ∧ completed_at r' = completed_at r)
  ∧ (∀ w id run r name err md,
       _runs w !! id = Some run → deref w run = Some r →
       ∃ w' r',
         fail_stage id name err md w = (true, w')
         ∧ deref w' run = Some r'
         ∧ status r' = FAILED
         ∧ progress r' = progress r).
Proof.
  split_all.
  - intros ops id r Hd Hr.
    apply run_attr_Some in Hr as (l & r0 & Hl & Hr0 & ->).
    assert (store_inv RunManager_init) as SInv.
    { intros i l0 Hl0. simpl in Hl0. by rewrite lookup_empty in Hl0. }
    destruct (completion_inv_run uuid4 ops _ id SInv (completion_inv_init id)
                Hd l Hl)
      as (r' & Hr' & Hiff & Hp).
    assert (r' = r) as -> by congruence. done.
  - intros w id run r success Hid Hr. unfold complete_run. rewrite Hid. simpl.
    eexists _, _. split; [reflexivity |]. split; [deref_write |].
    simpl. by eauto.
  - intros w id run r st p cs e Hid Hr. unfold update_status. rewrite Hid.
    destruct p, cs, e; simpl;
      (eexists _, _; split; [reflexivity |]; split; [deref_write |]); done.
  - intros w id run r name err md Hid Hr. unfold fail_stage. rewrite Hid.
    case_has_stage; simpl;
      (eexists _, _; split; [reflexivity |]; split; [deref_write |]); done.
Qed.

Lemma completion_time_spec_witness :
  ∃ r,
    run_attr (λ r, r) "0"
      (run_ops pretty
         [CreateRun "Test ad generation" "image" None;
          CreateRun "Second ad, for video" "video" None;
          UpdateStatus "0" GENERATION (Some 40%Q) (Some "generation") None;
          FailStage "1" "generation" "backend unavailable" None;
          UpdateStatus "1" COMPLETED None None None;
          CompleteRun "0" true]
         RunManager_init) = Some r
    ∧ (terminal (status r) = true ↔ is_Some (completed_at r))
    ∧ (is_Some (completed_at r) → progress r = 100%Q).
Proof.
  eexists. split; [vm_compute; reflexivity |].
  apply (proj1 (completion_time_spec pretty)
           [CreateRun "Test ad generation" "image" None;
            CreateRun "Second ad, for video" "video" None;
            UpdateStatus "0" GENERATION (Some 40%Q) (Some "generation") None;
            FailStage "1" "generation" "backend unavailable" None;
            UpdateStatus "1" COMPLETED None None None;
            CompleteRun "0" true] "0");
    vm_compute; reflexivity.
Defined.

(** C3 as stated does not hold of the store: [update_status] can give a
    status that ends the run without setting the completion time, and can
    give a completed run a status that does not end it; [fail_stage]
    fails the run without setting the completion time. *)
Lemma completion_time_counterexample :
  let create := CreateRun "Test ad generation" "image" None in
  let w1 := run_ops pretty
              [create; UpdateStatus "0" COMPLETED None None None]
              RunManager_init in
  let w2 := run_ops pretty
              [create; CompleteRun "0" true;
               UpdateStatus "0" GENERATION None None None]
              RunManager_init in
  let w3 := run_ops pretty
              [create; FailStage "0" "generation" "backend unavailable" None]
              RunManager_init in
  (run_attr status "0" w1 = Some COMPLETED
   ∧ run_attr completed_at "0" w1 = Some None)
  ∧ (run_attr status "0" w2 = Some GENERATION
     ∧ run_attr completed_at "0" w2 = Some (Some 2%nat))
  ∧ (run_attr status "0" w3 = Some FAILED
     ∧ run_attr completed_at "0" w3 = Some None).
Proof. vm_compute. repeat split. Qed.

(** ** Progress along a history *)

(** C9 (as the store has it).  Along every history the progress of a run
    stays within [0, 100].  [update_status] on the run records the
    progress it is given, clamped to [0, 100], whether or not it is below
    the current one, and leaves the progress as it is when given none;
    [complete_run] on the run sets it to 100; every other call, and every
    call on another run, leaves it as it is.  A call therefore lowers the
    progress of a run exactly when it is an [update_status] on that run
    whose progress, once clamped, is below the current one. *)
Theorem progress_spec (uuid4 : nat → string) :
  (∀ ops id r,
     run_attr (λ r, r) id (run_ops uuid4 ops RunManager_init) = Some r →
     (0 <= progress r <= 100)%Q)
  ∧ (∀ w id run r st p cs e,
       _runs w !! id = Some run → deref w run = Some r →
       ∃ w' r',
         update_status id st p cs e w = (true, w')
         ∧ deref w' run = Some r'
         ∧ progress r'
           = from_option (λ p0, Py.max 0 (Py.min 100 p0)) (progress r) p)
  ∧ (∀ w id run r success,
       _runs w !! id = Some run → deref w run = Some r →
       ∃ w' r',
         complete_run id success w = (true, w')
         ∧ deref w' run = Some r'
         ∧ progress r' = 100%Q)
  ∧ (∀ ops op id l r,
       _runs (run_ops uuid4 ops RunManager_init) !! id = Some l →
       deref (run_ops uuid4 ops RunManager_init) l = Some r →
       ∃ r',
         deref (step uuid4 op (run_ops uuid4 ops RunManager_init)) l = Some r'
         ∧ progress r'
           = match op with
             | UpdateStatus i _ (Some p) _ _ =>
                 if bool_decide (i = id) then Py.max 0 (Py.min 100 p)
                 else progress r
             | CompleteRun i _ =>
                 if bool_decide (i = id) then 100%Q else progress r
             | _ => progress r
             end
         ∧ ((progress r <= progress r')%Q ↔
            ∀ st p cs e,
              op = UpdateStatus id st (Some p) cs e →
              (progress r <= Py.max 0 (Py.min 100 p))%Q)).
Proof.
  split_all.
  - intros ops id r Hr.
    apply run_attr_Some in Hr as (l & r0 & Hl & Hr0 & ->).
    destruct (store_inv_reachable uuid4 ops id l Hl) as (r' & Hr' & _ & Hp).
    assert (r' = r) as -> by congruence. done.
  - intros w id run r st p cs e Hid Hr. unfold update_status. rewrite Hid.
    destruct p, cs, e; simpl;
      (eexists _, _; split; [reflexivity |]; split; [deref_write |]); done.
  - intros w id run r success Hid Hr. unfold complete_run. rewrite Hid. simpl.
    eexists _, _. split; [reflexivity |]. split; [deref_write |]. done.
  - intros ops op id l r Hl Hr.
    pose proof (store_inv_reachable uuid4 ops) as Inv.
    set (w := run_ops uuid4 ops RunManager_init) in *.
    destruct (Inv id l Hl) as (r0 & Hr0 & Hid & Hp).
    assert (r0 = r) as -> by congruence.
    destruct (step_instance uuid4 op w l r Hr) as (r' & Hr' & _ & _ & _ & Hp').
    exists r'. split; [done |].
    pose proof (λ i, targets_registered w id l i Inv Hl) as Ht.
    unfold effect in Hp'.
    assert (progress r'
            = match op with
              | UpdateStatus i _ (Some p) _ _ =>
                  if bool_decide (i = id) then Py.max 0 (Py.min 100 p)
                  else progress r
              | CompleteRun i _ =>
                  if bool_decide (i = id) then 100%Q else progress r
              | _ => progress r
              end) as Heq.
    { destruct op as [p m u | i st p cs e | i n md | i n md | i n e md
                     | i b g c f | i | i s | i]; simpl in Hp'; try done;
        rewrite Ht in Hp'; rewrite Hp';
        destruct (bool_decide (i = id)); simpl; try done.
      by destruct p. }
    split; [exact Heq |].
    rewrite Heq.
    destruct op as [p m u | i st p cs e | i n md | i n md | i n e md
                   | i b g c f | i | i s | i];
      try (split; [by intros _ st' p' cs' e' [=] | intros _; apply Qle_refl]).
    + destruct p as [p0|];
        [| split; [by intros _ st' p' cs' e' [=] | intros _; apply Qle_refl]].
      case_bool_decide as Hi.
      * subst i. split.
        -- intros H st' p' cs' e' [= _ <- _ _]. done.
        -- intros H. by eapply H.
      * split; [| intros _; apply Qle_refl].
        intros _ st' p' cs' e' [= E _ _ _ _]. done.
    + split; [by intros _ st' p' cs' e' [=] |]. intros _.
      case_bool_decide; [apply Hp | apply Qle_refl].
Qed.

Lemma progress_spec_witness :
  ∃ r',
    deref (run_ops pretty
             [CreateRun "Test ad generation" "image" None;
              UpdateStatus "0" GENERATION (Some 40%Q) None None;
              UpdateStatus "0" CRITIQUE (Some 70%Q) None None]
             RunManager_init) 1%positive = Some r'
    ∧ progress r' = 70%Q.
Proof.
  destruct (proj2 (proj2 (proj2 (progress_spec pretty)))
              [CreateRun "Test ad generation" "image" None;
               UpdateStatus "0" GENERATION (Some 40%Q) None None]
              (UpdateStatus "0" CRITIQUE (Some 70%Q) None None) "0" 1%positive
              (mkRunModel "0" "Test ad generation" "image" None GENERATION 40
                 None ∅ None [] None None None 0 0%nat 2%nat None))
    as (r' & H1 & H2 & _); [vm_compute; reflexivity .. |].
  exists r'. split; [exact H1 | exact H2].
Defined.

(** C9 as stated does not hold of the store: an [update_status] that
    gives 40 after one that gave 70 brings the progress of the run from
    70 back to 40. *)
Lemma progress_counterexample :
  let first :=
    [CreateRun "Test ad generation" "image" None;
     UpdateStatus "0" GENERATION (Some 40%Q) (Some "generation") None;
     UpdateStatus "0" CRITIQUE (Some 70%Q) (Some "critique") None] in
  let second :=
    [UpdateStatus "0" GENERATION (Some 40%Q) (Some "generation") None] in
  run_attr progress "0" (run_ops pretty first RunManager_init) = Some 70%Q
  ∧ run_attr progress "0"
      (run_ops pretty (first ++ second)%list RunManager_init)
    = Some 40%Q
  ∧ (40 < 70)%Q.
Proof. vm_compute. repeat split. Qed.

(** ** What readers receive *)

Lemma elem_of_list_runs st w l :
  l ∈ list_runs st w ↔
  ∃ id, _runs w !! id = Some l
        ∧ match st with
          | Some s => status <$> deref w l = Some s
          | None => True
          end.
Proof.
  assert (l ∈ (map_to_list (_runs w)).*2 ↔ ∃ id, _runs w !! id = Some l)
    as Hall.
  { rewrite list_elem_of_fmap. split.
    - intros ([id l'] & -> & Hin). exists id. by apply elem_of_map_to_list.
    - intros (id & Hid). exists (id, l). split; [done |].
      by apply elem_of_map_to_list. }
  unfold list_runs. destruct st as [s|].
  - rewrite list_elem_of_In, filter_In, <- list_elem_of_In, Hall.
    split.
    + intros [(id & Hid) Hs]. exists id. split; [done |].
      destruct (deref w l) as [r|]; [| done].
      apply bool_decide_eq_true in Hs. simpl. by rewrite Hs.
    + intros (id & Hid & Hs). split; [by eauto |].
      destruct (deref w l) as [r|]; [| done]. simpl in Hs.
      injection Hs as Hs. by apply bool_decide_eq_true.
  - rewrite Hall. split.
    + intros (id & Hid). by exists id.
    + intros (id & Hid & _). by exists id.
Qed.

(** C6 (as the store has it).  [list_runs] answers a new list of the run
    instances of the store, those whose status is the given one when a
    status is given, and [get_run] answers the run instance or [None].
    What a reader receives is the store's own instance, not a copy: the
    store keeps handing out the same reference, a later [update_status]
    on the run shows through a reference obtained before it, and a write
    made through such a reference changes the record the store holds. *)
Theorem readers_hold_live_references w :
  (∀ st l,
     l ∈ list_runs st w ↔
     ∃ id, get_run id w = Some l
           ∧ match st with
             | Some s => status <$> deref w l = Some s
             | None => True
             end)
  ∧ (∀ id, get_run id w = _runs w !! id)
  ∧ (∀ id l r st p cs e,
       get_run id w = Some l → deref w l = Some r →
       ∃ w' r',
         update_status id st p cs e w = (true, w')
         ∧ get_run id w' = Some l
         ∧ deref w' l = Some r'
         ∧ status r' = st)
  ∧ (∀ id l r f,
       get_run id w = Some l → deref w l = Some r →
       get_run id (setattr l f w) = Some l
       ∧ run_attr (λ r, r) id (setattr l f w) = Some (f r)).
Proof.
  split_all.
  - intros st l. apply elem_of_list_runs.
  - done.
  - intros id l r st p cs e Hid Hr. unfold get_run in *.
    unfold update_status. rewrite Hid.
    destruct p, cs, e; simpl;
      (eexists _, _; split; [reflexivity |]; split; [done |];
       split; [deref_write |]); done.
  - intros id l r f Hid Hr. unfold run_attr, get_run in *. simpl.
    rewrite Hid. simpl. by erewrite deref_setattr_eq.
Qed.

Lemma readers_hold_live_references_witness :
  ∃ w' r',
    update_status "0" GENERATION (Some 25%Q) None None one_run = (true, w')
    ∧ get_run "0" w' = Some 1%positive
    ∧ deref w' 1%positive = Some r'
    ∧ status r' = GENERATION.
Proof.
  apply (proj1 (proj2 (proj2 (readers_hold_live_references one_run)))
           "0" 1%positive _ GENERATION (Some 25%Q) None None
           (proj1 one_run_registered) (proj2 one_run_registered)).
Defined.

(** C6 as stated does not hold of the store: the reference [get_run] and
    [list_runs] hand to a reader is the instance the store goes on
    writing.  A reader who obtained the run while it was pending sees it
    in generation after the engine's [update_status], and a reader who
    writes through the reference changes what the store answers. *)
Lemma snapshot_counterexample :
  let held := 1%positive in
  let later :=
    (update_status "0" GENERATION (Some 25%Q) (Some "generation") None
       one_run).2 in
  get_run "0" one_run = Some held
  ∧ list_runs None one_run = [held]
  ∧ status <$> deref one_run held = Some PENDING
  ∧ status <$> deref later held = Some GENERATION
  ∧ run_attr status "0" (setattr held (set_status FAILED) one_run)
    = Some FAILED.
Proof. vm_compute. repeat split. Qed.

(** ** Validation of a generation request *)

Lemma length_rev_app s1 s2 :
  String.length (String.rev_app s1 s2)
  = (String.length s1 + String.length s2)%nat.
Proof.
  revert s2. induction s1 as [| c s1 IH]; intros s2; simpl; [done |].
  rewrite IH. simpl. lia.
Qed.

Lemma length_rev s : String.length (String.rev s) = String.length s.
Proof. unfold String.rev. rewrite length_rev_app. simpl. lia. Qed.

Lemma length_lstrip s : (String.length (Py.lstrip s) ≤ String.length s)%nat.
Proof.
  induction s as [| c s IH]; simpl; [done |].
  destruct (Py.isspace c); simpl; lia.
Qed.

Lemma len_strip s : Py.len (Py.strip s) <= Py.len s.
Proof.
  unfold Py.len, Py.strip, Py.rstrip. apply Nat2Z.inj_le.
  rewrite length_rev.
  etrans; [apply length_lstrip |]. rewrite length_rev. apply length_lstrip.
Qed.

Lemma MediaType_parse_Some media m :
  MediaType_parse media = Some m ↔
  MediaType_value m = media ∧ (media = "image" ∨ media = "video").
Proof.
  unfold MediaType_parse. split.
  - repeat case_bool_decide; intros [= <-]; subst; simpl; by auto.
  - intros [<- _]. by destruct m.
Qed.

Lemma MediaType_parse_None media :
  MediaType_parse media = None ↔ ¬ (media = "image" ∨ media = "video").
Proof.
  unfold MediaType_parse.
  destruct (decide (media = "image")) as [-> | H1]; [by intuition |].
  destruct (decide (media = "video")) as [-> | H2]; [by intuition |].
  rewrite !bool_decide_false by done. by intuition.
Qed.

Section Validation.

Variable uuid4 : nat → string.
Variable UploadFile : Type.
Variable save_upload : string → UploadFile → string + string.

Lemma validate_inputs_None prompt (m : MediaType) :
  validate_inputs prompt (inl m) = None ↔ 10 <= Py.len (Py.strip prompt).
Proof.
  unfold validate_inputs.
  destruct (decide (prompt = "")) as [-> | Hne].
  - simpl. split; [done | intros H; by vm_compute in H].
  - rewrite bool_decide_false by done. simpl.
    destruct (Z.ltb_spec (Py.len (Py.strip prompt)) 10) as [Hlt | Hge].
    + split; [done | lia].
    + split; [done | intros _]. by destruct m.
Qed.

Lemma validate_inputs_Some prompt (m : MediaType) e :
  validate_inputs prompt (inl m) = Some e →
  e = ValidationError "Prompt must be at least 10 characters long".
Proof.
  unfold validate_inputs.
  destruct (bool_decide (prompt = "") || (Py.len (Py.strip prompt) <? 10)%Z);
    [by intros [= <-] |].
  by destruct m.
Qed.

Lemma generate_ad_created prompt (m : MediaType) url logo product w lp pp :
  validate_inputs prompt (inl m) = None →
  upload_block UploadFile save_upload "logo" logo = inr lp →
  upload_block UploadFile save_upload "product" product = inr pp →
  generate_ad uuid4 UploadFile save_upload prompt (inl m) url logo product w
  = (GenerationResponse (uuid4 (draws w)) PENDING
       (if bool_decide (MediaType_value m = "image") then 120 else 300),
     Some (mkTask (uuid4 (draws w)) prompt (MediaType_value m) url lp pp),
     (create_run uuid4 prompt (MediaType_value m) url w).2).
Proof.
  intros Hv Hl Hp. unfold generate_ad, generate_ad_try.
  rewrite Hv, Hl, Hp, create_run_eq. simpl.
  unfold deref; simpl. by rewrite lookup_insert_eq.
Qed.

Lemma generate_ad_upload_failed prompt (m : MediaType) url logo product w e :
  validate_inputs prompt (inl m) = None →
  upload_block UploadFile save_upload "logo" logo = inl e
  ∨ (∃ lp, upload_block UploadFile save_upload "logo" logo = inr lp)
    ∧ upload_block UploadFile save_upload "product" product = inl e →
  ∃ message,
    e = new_FileUploadError message
    ∧ generate_ad uuid4 UploadFile save_upload prompt (inl m) url logo
        product w
      = (HTTPException 400 ("File upload error: " ++ message), None, w).
Proof.
  intros Hv Hup. unfold generate_ad, generate_ad_try. rewrite Hv.
  assert (∀ a f e', upload_block UploadFile save_upload a f = inl e' →
                    ∃ message, e' = new_FileUploadError message) as Hkind.
  { intros a [f|] e'; simpl; [| done].
    destruct (save_upload a f); [done |]. intros [= <-]. by eauto. }
  destruct Hup as [Hl | [[lp Hl] Hp]].
  - destruct (Hkind _ _ _ Hl) as [message ->]. exists message.
    by rewrite Hl.
  - destruct (Hkind _ _ _ Hp) as [message ->]. exists message.
    by rewrite Hl, Hp.
Qed.

End Validation.

(** C8 (as the endpoint has it).  [POST /generate] rejects with a
    validation failure, creating no run and queuing no task, exactly the
    requests whose prompt has fewer than 10 characters once the white
    space around it is removed, or more than 1000 characters, or whose
    media kind is neither [image] nor [video].  Every other request passes
    validation: if its uploads are stored, a run is created and the
    answer carries its identifier with status pending; if an upload
    fails, the answer is a file upload error and no run is created. *)
Theorem validation_spec (uuid4 : nat → string) (UploadFile : Type)
    (save_upload : string → UploadFile → string + string)
    prompt media url logo product w :
  (¬ acceptable prompt media →
   ∃ resp,
     post_generate uuid4 UploadFile save_upload prompt media url logo product w
     = (resp, None, w)
     ∧ validation_failure resp)
  ∧ (acceptable prompt media →
     ∃ resp task w',
       post_generate uuid4 UploadFile save_upload prompt media url logo
         product w
       = (resp, task, w')
       ∧ ¬ validation_failure resp
       ∧ match upload_block UploadFile save_upload "logo" logo,
               upload_block UploadFile save_upload "product" product with
         | inr lp, inr pp =>
             resp = GenerationResponse (uuid4 (draws w)) PENDING
                      (if bool_decide (media = "image") then 120 else 300)
             ∧ task = Some (mkTask (uuid4 (draws w)) prompt media url lp pp)
             ∧ w' = (create_run uuid4 prompt media url w).2
         | inl e, _ | inr _, inl e =>
             resp = HTTPException 400 (str_exc e) ∧ task = None ∧ w' = w
         end).
Proof.
  unfold post_generate. split.
  - intros Hna.
    destruct ((Py.len prompt <? 10)%Z || (1000 <? Py.len prompt)%Z) eqn:Hlen.
    { eexists. split; [reflexivity | by left]. }
    destruct (MediaType_parse media) as [m|] eqn:Hm.
    2: { eexists. split; [reflexivity | by left]. }
    destruct (validate_inputs prompt (inl m)) as [e|] eqn:Hv.
    + apply validate_inputs_Some in Hv as ->.
      unfold generate_ad, generate_ad_try.
      pose proof (validate_inputs_None prompt m) as Hiff.
      destruct (validate_inputs prompt (inl m)) as [e|] eqn:Hv.
      * apply validate_inputs_Some in Hv as ->.
        eexists. split; [reflexivity |]. right. by left.
      * exfalso. apply Hna. apply orb_false_iff in Hlen as [_ H2].
        apply Z.ltb_ge in H2. apply MediaType_parse_Some in Hm as [_ Hm].
        split; [by apply Hiff |]. done.
    + exfalso. apply Hna. apply orb_false_iff in Hlen as [_ H2].
      apply Z.ltb_ge in H2. apply MediaType_parse_Some in Hm as [_ Hm].
      split; [by apply (validate_inputs_None prompt m) |]. done.
  - intros (Hs & Hl & Hm).
    assert ((Py.len prompt <? 10)%Z || (1000 <? Py.len prompt)%Z = false)
      as ->.
    { apply orb_false_iff. split; [apply Z.ltb_ge | apply Z.ltb_ge; lia].
      pose proof (len_strip prompt). lia. }
    destruct (MediaType_parse media) as [m|] eqn:Hp;
      [| apply MediaType_parse_None in Hp; done].
    apply MediaType_parse_Some in Hp as [<- _].
    apply (validate_inputs_None prompt m) in Hs.
    destruct (upload_block UploadFile save_upload "logo" logo)
      as [e | lp] eqn:Hlogo.
    { destruct (generate_ad_upload_failed uuid4 UploadFile save_upload
                  prompt m url logo product w e Hs (or_introl Hlogo))
        as (message & -> & ->).
      eexists _, _, _. split; [reflexivity |].
      split; [| done].
      intros [H | [H | H]]; done. }
    destruct (upload_block UploadFile save_upload "product" product)
      as [e | pp] eqn:Hprod.
    { destruct (generate_ad_upload_failed uuid4 UploadFile save_upload
                  prompt m url logo product w e Hs
                  (or_intror (conj (ex_intro _ lp Hlogo) Hprod)))
        as (message & -> & ->).
      eexists _, _, _. split; [reflexivity |].
      split; [| done].
      intros [H | [H | H]]; done. }
    rewrite (generate_ad_created uuid4 UploadFile save_upload prompt m url
               logo product w lp pp Hs Hlogo Hprod).
    eexists _, _, _. split; [reflexivity |].
    split; [| done].
    intros [H | [H | H]]; done.
Qed.

Lemma validation_spec_witness :
  (∃ resp,
     post_generate pretty unit (λ _ _, inl "stored") "Nike shoe" "image"
       None None None RunManager_init
     = (resp, None, RunManager_init)
     ∧ validation_failure resp)
  ∧ (∃ resp task w',
       post_generate pretty unit (λ _ _, inl "stored")
         "Nike shoe advertisement" "video" None None None RunManager_init
       = (resp, task, w')
       ∧ resp = GenerationResponse "0" PENDING 300).
Proof.
  split.
  - apply (proj1 (validation_spec pretty unit (λ _ _, inl "stored")
                    "Nike shoe" "image" None None None RunManager_init)).
    intros [H _]. by vm_compute in H.
  - destruct (proj2 (validation_spec pretty unit (λ _ _, inl "stored")
                       "Nike shoe advertisement" "video" None None None
                       RunManager_init))
      as (resp & task & w' & H1 & _ & H2 & _).
    + split; [by vm_compute |]. split; [by vm_compute | by right].
    + exists resp, task, w'. split; [exact H1 | exact H2].
Defined.

(** C8 as stated does not hold of the endpoint: a prompt of ten or more
    characters is rejected when fewer than ten remain once the white
    space around it is removed, and when it has more than 1000. *)
Lemma validation_counterexample :
  let padded := "  Nike ad   " in
  let long := String.concat "" (replicate 1001 "a") in
  (10 <= Py.len padded
   ∧ post_generate pretty unit (λ _ _, inl "stored") padded "image"
       None None None RunManager_init
     = (HTTPException 400 "Prompt must be at least 10 characters long",
        None, RunManager_init))
  ∧ (10 <= Py.len long
     ∧ post_generate pretty unit (λ _ _, inl "stored") long "image"
         None None None RunManager_init
       = (RequestValidationError, None, RunManager_init)).
Proof. vm_compute. repeat split; discriminate. Qed.

(** ** The background workflow *)

(** C2 (what the handler does).  When the engine raises, the handler of
    [execute_workflow] looks up [fail_run] on the manager, which has no
    such attribute: an [AttributeError] escapes the task and the store is
    left as the engine left it, with nothing recorded by the handler. *)
Theorem execute_workflow_fault
    (orchestrator_execute :
       string → string → string → option string → option string →
       option string → Z → World → (Exception + Dict) * World)
    (call_method :
       string → list string → World → (Exception + unit) * World)
    run_id prompt media url logo_path product_path w e w1 :
  orchestrator_execute run_id prompt media url logo_path product_path 3 w
  = (inl e, w1) →
  execute_workflow orchestrator_execute call_method run_id prompt media url
    logo_path product_path w
  = (inl (AttributeError "'RunManager' object has no attribute 'fail_run'"),
     w1).
Proof. intros H. unfold execute_workflow. by rewrite H. Qed.

(** The run created first, with an engine that raises at once: the task
    ends with the [AttributeError] and the run is still pending, with no
    error message. *)
Lemma execute_workflow_fault_witness :
  let raising :=
    λ (_ _ _ : string) (_ _ _ : option string) (_ : Z) (w : World),
      (inl (OtherException "RuntimeError" "backend unavailable")
         : Exception + Dict, w) in
  let result :=
    execute_workflow raising (λ _ _ w, (inr tt, w)) "0" "Test ad generation"
      "image" None None None one_run in
  result
  = (inl (AttributeError "'RunManager' object has no attribute 'fail_run'"),
     one_run)
  ∧ run_attr status "0" result.2 = Some PENDING
  ∧ run_attr error_message "0" result.2 = Some None
  ∧ run_attr completed_at "0" result.2 = Some None.
Proof.
  intros raising result.
  assert (result
          = (inl (AttributeError
                    "'RunManager' object has no attribute 'fail_run'"),
             one_run)) as ->.
  { apply (execute_workflow_fault raising (λ _ _ w, (inr tt, w)) "0"
             "Test ad generation" "image" None None None one_run
             (OtherException "RuntimeError" "backend unavailable") one_run).
    reflexivity. }
  repeat split; reflexivity.
Defined.

Lemma should_continue_table_witness :
  should_continue (mkWorkflowState (Some "regenerate") 5 3) = "end"
  ∧ should_continue (mkWorkflowState None 1 3) = "end"
  ∧ should_continue (mkWorkflowState (Some "enhance") 2 3) = "enhance".
Proof.
  destruct should_continue_table as (H1 & H2 & H3 & _).
  split; [apply H1; lia |]. split; [apply H2; lia | apply H3; lia].
Defined.

(** * Further properties of the store and of the routes *)

(** ** Frames of a step *)

Section Frames.

Variable uuid4 : nat → string.

(** What a step does to an allocated instance [l], besides status,
    completion time and progress: the identifier, the input snapshot and
    the creation time are kept, and stage history and retry count are
    those of [effect_frame]. *)
Lemma step_instance_frame op w l r :
  deref w l = Some r →
  ∃ r',
    deref (step uuid4 op w) l = Some r'
    ∧ (run_id r', prompt r', media_type r', brand_website_url r',
       created_at r')
      = (run_id r, prompt r, media_type r, brand_website_url r, created_at r)
    ∧ stages r' = (effect_frame op w l r).1
    ∧ retry_count r' = (effect_frame op w l r).2.
Proof.
  intros Hr. unfold effect_frame.
  destruct op as [p m u | i st p cs e | i n md | i n md | i n e md
                 | i b g c f | i | i s | i]; unfold step.
  - exists r. rewrite create_run_eq. simpl. split; [| done].
    unfold deref; simpl. rewrite lookup_insert_ne; [done |].
    intros E. pose proof (fresh_unallocated w) as F. rewrite E in F. congruence.
  - unfold update_status.
    destruct (_runs w !! i) as [run|] eqn:Hi; [| by eauto 10].
    destruct (decide (l = run)) as [->|Hl].
    + destruct p as [p0|], cs, e; simpl;
        (eexists; split; [deref_write |]); done.
    + exists r. split; [| done].
      destruct p, cs, e; simpl; rewrite <- Hr; deref_other.
  - unfold start_stage, targets.
    destruct (_runs w !! i) as [run|] eqn:Hi;
      [| rewrite bool_decide_false by done; by eauto 10].
    destruct (decide (l = run)) as [->|Hl].
    + rewrite bool_decide_true by done.
      simpl. eexists; split; [deref_write |]; done.
    + rewrite bool_decide_false by congruence.
      exists r. split; [| done]. simpl. rewrite <- Hr; deref_other.
  - unfold complete_stage, targets.
    destruct (_runs w !! i) as [run|] eqn:Hi;
      [| rewrite bool_decide_false by done; by eauto 10].
    destruct (decide (l = run)) as [->|Hl].
    + rewrite bool_decide_true by done. rewrite Hr.
      destruct (stages r !! n) as [stage|] eqn:Hs.
      * rewrite bool_decide_true by eauto. simpl.
        eexists; split; [deref_write |]; done.
      * rewrite bool_decide_false by (intros [? ?]; congruence). simpl.
        eexists; split; [deref_write |]. simpl.
        unfold complete_stage_record. by rewrite Hs.
    + rewrite bool_decide_false by congruence.
      exists r. split; [| done].
      case_has_stage; simpl; rewrite <- Hr; deref_other.
  - unfold fail_stage, targets.
    destruct (_runs w !! i) as [run|] eqn:Hi;
      [| rewrite bool_decide_false by done; by eauto 10].
    destruct (decide (l = run)) as [->|Hl].
    + rewrite bool_decide_true by done. rewrite Hr.
      destruct (stages r !! n) as [stage|] eqn:Hs.
      * rewrite bool_decide_true by eauto. simpl.
        eexists; split; [deref_write |]; done.
      * rewrite bool_decide_false by (intros [? ?]; congruence). simpl.
        eexists; split; [deref_write |]. simpl.
        unfold fail_stage_record. by rewrite Hs.
    + rewrite bool_decide_false by congruence.
      exists r. split; [| done].
      case_has_stage; simpl; rewrite <- Hr; deref_other.
  - unfold update_run_data.
    destruct (_runs w !! i) as [run|] eqn:Hi; [| by eauto 10].
    destruct (decide (l = run)) as [->|Hl].
    + destruct b, g, c, f; simpl; (eexists; split; [deref_write |]); done.
    + exists r. split; [| done].
      destruct b, g, c, f; simpl; rewrite <- Hr; deref_other.
  - unfold increment_retry, targets.
    destruct (_runs w !! i) as [run|] eqn:Hi;
      [| rewrite bool_decide_false by done; by eauto 10].
    destruct (decide (l = run)) as [->|Hl].
    + rewrite bool_decide_true by done.
      simpl. eexists; split; [deref_write |]; done.
    + rewrite bool_decide_false by congruence.
      exists r. split; [| done]. simpl. rewrite <- Hr; deref_other.
  - unfold complete_run.
    destruct (_runs w !! i) as [run|] eqn:Hi; [| by eauto 10].
    destruct (decide (l = run)) as [->|Hl].
    + simpl. eexists; split; [deref_write |]; done.
    + exists r. split; [| done]. simpl. rewrite <- Hr; deref_other.
  - unfold delete_run.
    destruct (_runs w !! i); simpl; eauto 10.
Qed.

(** A call leaves every instance but the one it names as it is. *)
Lemma step_other op w l :
  (∀ i, op_run_id op = Some i → _runs w !! i ≠ Some l) →
  is_Some (deref w l) →
  deref (step uuid4 op w) l = deref w l.
Proof.
  intros Ht [r Hr].
  destruct op as [p m u | i st p cs e | i n md | i n md | i n e md
                 | i b g c f | i | i s | i]; unfold step;
    try (pose proof (Ht i eq_refl) as Hne).
  - rewrite create_run_eq. unfold deref; simpl.
    rewrite lookup_insert_ne; [done |].
    intros E. pose proof (fresh_unallocated w) as F. rewrite E in F.
    congruence.
  - unfold update_status. destruct (_runs w !! i) as [run|] eqn:Hi; [| done].
    assert (run ≠ l) by congruence.
    destruct p, cs, e; simpl; deref_other.
  - unfold start_stage. destruct (_runs w !! i) as [run|] eqn:Hi; [| done].
    assert (run ≠ l) by congruence.
    simpl. deref_other.
  - unfold complete_stage. destruct (_runs w !! i) as [run|] eqn:Hi; [| done].
    assert (run ≠ l) by congruence.
    case_has_stage; simpl; deref_other.
  - unfold fail_stage. destruct (_runs w !! i) as [run|] eqn:Hi; [| done].
    assert (run ≠ l) by congruence.
    case_has_stage; simpl; deref_other.
  - unfold update_run_data. destruct (_runs w !! i) as [run|] eqn:Hi; [| done].
    assert (run ≠ l) by congruence.
    destruct b, g, c, f; simpl; deref_other.
  - unfold increment_retry. destruct (_runs w !! i) as [run|] eqn:Hi; [| done].
    assert (run ≠ l) by congruence.
    simpl. deref_other.
  - unfold complete_run. destruct (_runs w !! i) as [run|] eqn:Hi; [| done].
    assert (run ≠ l) by congruence.
    simpl. deref_other.
  - unfold delete_run. by destruct (_runs w !! i).
Qed.

End Frames.

(** ** Invariants of registered runs *)

Section Registered.

Variable uuid4 : nat → string.

(** A property of run instances that holds of a newly created one and
    that every call keeps holds of every registered run, whatever the
    history of the store. *)
Lemma registered_inv (P : RunModel → Prop) :
  (∀ p m u w, P (created uuid4 p m u w)) →
  (∀ op w l r r',
     deref w l = Some r → deref (step uuid4 op w) l = Some r' → P r → P r') →
  ∀ ops id l,
    _runs (run_ops uuid4 ops RunManager_init) !! id = Some l →
    ∃ r, deref (run_ops uuid4 ops RunManager_init) l = Some r ∧ P r.
Proof.
  intros Hnew Hkeep ops.
  induction ops as [| op ops IH] using rev_ind; intros id l Hl.
  - simpl in Hl. by rewrite lookup_empty in Hl.
  - rewrite run_ops_snoc in *. set (w := run_ops uuid4 ops RunManager_init) in *.
    assert (∀ id0, _runs w !! id0 = Some l →
                   ∃ r, deref (step uuid4 op w) l = Some r ∧ P r) as Hold.
    { intros id0 Hl0. destruct (IH id0 l Hl0) as (r & Hr & HP).
      destruct (step_instance uuid4 op w l r Hr) as (r' & Hr' & _).
      exists r'. split; [done |]. exact (Hkeep op w l r r' Hr Hr' HP). }
    rewrite step_runs in Hl.
    destruct op as [p m u | i st p cs e | i n md | i n md | i n e md
                   | i b g c f | i | i s | i];
      try (by eapply Hold).
    + destruct (decide (uuid4 (draws w) = id)) as [<-|Hne].
      * rewrite lookup_insert_eq in Hl. injection Hl as <-.
        exists (created uuid4 p m u w). split; [| done].
        unfold step. rewrite create_run_eq. unfold deref; simpl.
        by rewrite lookup_insert_eq.
      * rewrite lookup_insert_ne in Hl by done. by eapply Hold.
    + apply lookup_delete_Some in Hl as [_ Hl]. by eapply Hold.
Qed.

End Registered.

(** X1. A call that names an identifier the store does not hold answers
    [False] and changes nothing, not even the clock: this holds of
    [update_status], [start_stage], [complete_stage], [fail_stage],
    [update_run_data], [increment_retry], [complete_run] and
    [delete_run]; [get_run] answers [None]. *)
Theorem unknown_run_refused w id :
  _runs w !! id = None →
  get_run id w = None
  ∧ (∀ st p cs e, update_status id st p cs e w = (false, w))
  ∧ (∀ n md, start_stage id n md w = (false, w))
  ∧ (∀ n md, complete_stage id n md w = (false, w))
  ∧ (∀ n err md, fail_stage id n err md w = (false, w))
  ∧ (∀ b g c f, update_run_data id b g c f w = (false, w))
  ∧ increment_retry id w = (false, w)
  ∧ (∀ success, complete_run id success w = (false, w))
  ∧ delete_run id w = (false, w).
Proof.
  intros H.
  unfold get_run, update_status, start_stage, complete_stage, fail_stage,
    update_run_data, increment_retry, complete_run, delete_run.
  rewrite H. by split_all.
Qed.

Lemma unknown_run_refused_witness :
  fail_stage "7" "generation" "boom" None one_run = (false, one_run)
  ∧ complete_run "7" true one_run = (false, one_run).
Proof.
  assert (_runs one_run !! "7" = None) as H by reflexivity.
  destruct (unknown_run_refused one_run "7" H)
    as (_ & _ & _ & _ & H4 & _ & _ & H7 & _).
  split; [apply H4 | apply H7].
Defined.

(** X2. Identifier, prompt, media type, brand website and creation time
    of a run instance never change: whatever calls are made on the store,
    on this run or another, the instance keeps the values it was created
    with. *)
Theorem input_snapshot_immutable (uuid4 : nat → string) ops w l r :
  deref w l = Some r →
  ∃ r',
    deref (run_ops uuid4 ops w) l = Some r'
    ∧ run_id r' = run_id r
    ∧ prompt r' = prompt r
    ∧ media_type r' = media_type r
    ∧ brand_website_url r' = brand_website_url r
    ∧ created_at r' = created_at r.
Proof.
  revert w r. induction ops as [| op ops IH]; intros w r Hr.
  - exists r. by split_all.
  - rewrite run_ops_cons.
    destruct (step_instance_frame uuid4 op w l r Hr) as (r1 & Hr1 & E & _).
    destruct (IH _ _ Hr1) as (r' & Hr' & H1 & H2 & H3 & H4 & H5).
    exists r'. injection E as E1 E2 E3 E4 E5.
    split_all; congruence.
Qed.

Lemma input_snapshot_immutable_witness :
  ∃ r',
    deref (run_ops pretty
             [UpdateStatus "0" GENERATION (Some 40%Q) None None;
              FailStage "0" "generation" "boom" None;
              DeleteRun "0"] one_run) 1%positive = Some r'
    ∧ run_id r' = "0"
    ∧ prompt r' = "Test ad generation"
    ∧ media_type r' = "image"
    ∧ brand_website_url r' = None
    ∧ created_at r' = 0%nat.
Proof.
  apply (input_snapshot_immutable pretty
           [UpdateStatus "0" GENERATION (Some 40%Q) None None;
            FailStage "0" "generation" "boom" None;
            DeleteRun "0"] one_run 1%positive _ (proj2 one_run_registered)).
Defined.

(** ** Retry count *)

Lemma increment_retry_run w id run r :
  _runs w !! id = Some run →
  deref w run = Some r →
  ∃ w',
    increment_retry id w = (true, w')
    ∧ _runs w' = _runs w
    ∧ deref w' run
      = Some (set_updated_at (clock w) (set_retry_count (retry_count r + 1) r)).
Proof.
  intros Hid Hr. unfold increment_retry. rewrite Hid. simpl.
  eexists. split; [reflexivity |]. split; [done | deref_write].
  unfold deref in Hr. by rewrite lookup_alter_eq, Hr.
Qed.

(** X3. The retry count of a run is never negative and never goes down:
    a call leaves it as it is unless it is an [increment_retry] on that
    run, which adds one; [n] calls of [increment_retry] add [n]. *)
Theorem retry_count_spec (uuid4 : nat → string) :
  (∀ ops id r,
     run_attr (λ r, r) id (run_ops uuid4 ops RunManager_init) = Some r →
     0 <= retry_count r)
  ∧ (∀ op w l r,
       deref w l = Some r →
       ∃ r',
         deref (step uuid4 op w) l = Some r'
         ∧ (retry_count r' = retry_count r
            ∨ (∃ i, op = IncrementRetry i ∧ _runs w !! i = Some l)
              ∧ retry_count r' = retry_count r + 1))
  ∧ (∀ n w id run r,
       _runs w !! id = Some run → deref w run = Some r →
       ∃ r',
         deref (increment_retries n id w) run = Some r'
         ∧ retry_count r' = retry_count r + Z.of_nat n).
Proof.
  assert (∀ op w l r,
            deref w l = Some r →
            ∃ r',
              deref (step uuid4 op w) l = Some r'
              ∧ (retry_count r' = retry_count r
                 ∨ (∃ i, op = IncrementRetry i ∧ _runs w !! i = Some l)
                   ∧ retry_count r' = retry_count r + 1)) as Hstep.
  { intros op w l r Hr.
    destruct (step_instance_frame uuid4 op w l r Hr) as (r' & Hr' & _ & _ & E).
    exists r'. split; [done |]. rewrite E. unfold effect_frame.
    destruct op as [p m u | i st p cs e | i n md | i n md | i n e md
                   | i b g c f | i | i s | i]; simpl; auto;
      destruct (targets w i l) eqn:Ht; simpl; auto.
    right. split; [| done]. exists i. split; [done |].
    by apply bool_decide_eq_true in Ht. }
  split_all.
  - intros ops id r Hr.
    apply run_attr_Some in Hr as (l & r0 & Hl & Hr0 & ->).
    destruct (registered_inv uuid4 (λ r, 0 <= retry_count r)) with
      (ops := ops) (id := id) (l := l) as (r' & Hr' & HP); try done.
    + intros op w l0 r0 r1 H0 H1 HP.
      destruct (Hstep op w l0 r0 H0) as (r2 & H2 & [E | [_ E]]);
        assert (r2 = r1) as -> by congruence; lia.
    + assert (r' = r) as -> by congruence. done.
  - exact Hstep.
  - intros n w id run r Hid Hr.
    assert (∃ r',
              deref (increment_retries n id w) run = Some r'
              ∧ retry_count r' = retry_count r + Z.of_nat n
              ∧ _runs (increment_retries n id w) !! id = Some run) as H.
    { induction n as [| n IH].
      - exists r. split_all; [done | simpl; lia | done].
      - destruct IH as (r1 & Hr1 & E1 & Hid1).
        unfold increment_retries in *. simpl.
        set (w1 := Nat.iter n (λ w, (increment_retry id w).2) w) in *.
        destruct (increment_retry_run w1 id run r1 Hid1 Hr1)
          as (w2 & -> & Hid2 & Hr2).
        eexists. split; [exact Hr2 |]. simpl. split; [lia | congruence]. }
    destruct H as (r' & H1 & H2 & _). by exists r'.
Qed.

Lemma retry_count_spec_witness :
  ∃ r',
    deref (increment_retries 3 "0" one_run) 1%positive = Some r'
    ∧ retry_count r' = 0 + Z.of_nat 3.
Proof.
  apply (proj2 (proj2 (retry_count_spec pretty)) 3%nat one_run "0" 1%positive
           _ (proj1 one_run_registered) (proj2 one_run_registered)).
Defined.

(** ** Stage history *)

Lemma stages_step_wf op w l r :
  map_Forall stage_wf (stages r) →
  map_Forall stage_wf (effect_frame op w l r).1
  ∧ ∀ n, is_Some (stages r !! n) → is_Some ((effect_frame op w l r).1 !! n).
Proof.
  intros Hwf. unfold effect_frame.
  destruct op as [p m u | i st p cs e | i n md | i n md | i n e md
                 | i b g c f | i | i s | i]; simpl; try done;
    destruct (targets w i l); simpl; try done.
  - split.
    + apply map_Forall_insert_2; [| done].
      split; [done |]. split; [by eauto |]. by left.
    + intros k Hk. destruct (decide (n = k)) as [-> |];
        [rewrite lookup_insert_eq | rewrite lookup_insert_ne by done]; eauto.
  - unfold complete_stage_record.
    destruct (stages r !! n) as [stage|] eqn:Hs; [| done].
    destruct (Hwf n stage Hs) as (Hn & Hst & _).
    split.
    + apply map_Forall_insert_2; [| done].
      split; [done |]. split; [done |]. right. left. by eauto.
    + intros k Hk. destruct (decide (n = k)) as [-> |];
        [rewrite lookup_insert_eq | rewrite lookup_insert_ne by done]; eauto.
  - unfold fail_stage_record.
    destruct (stages r !! n) as [stage|] eqn:Hs; [| done].
    destruct (Hwf n stage Hs) as (Hn & Hst & _).
    split.
    + apply map_Forall_insert_2; [| done].
      split; [done |]. split; [done |]. right. right. by eauto.
    + intros k Hk. destruct (decide (n = k)) as [-> |];
        [rewrite lookup_insert_eq | rewrite lookup_insert_ne by done]; eauto.
Qed.

(** X4. Whatever the history of the store, every stage record of a
    registered run is stored under its own name, has a start time, and is
    either pending with no completion time, or completed with one, or
    failed with a completion time and an error text; and no call ever
    removes a stage record from a run. *)
Theorem stage_history_spec (uuid4 : nat → string) :
  (∀ ops id r n s,
     run_attr (λ r, r) id (run_ops uuid4 ops RunManager_init) = Some r →
     stages r !! n = Some s →
     stage_wf n s)
  ∧ (∀ op w l r,
       deref w l = Some r →
       ∃ r',
         deref (step uuid4 op w) l = Some r'
         ∧ ∀ n, is_Some (stages r !! n) → is_Some (stages r' !! n)).
Proof.
  split.
  - intros ops id r n s Hr Hs.
    apply run_attr_Some in Hr as (l & r0 & Hl & Hr0 & ->).
    destruct (registered_inv uuid4 (λ r, map_Forall stage_wf (stages r))) with
      (ops := ops) (id := id) (l := l) as (r' & Hr' & HP); try done.
    + intros op w l0 r0 r1 H0 H1 HP.
      destruct (step_instance_frame uuid4 op w l0 r0 H0)
        as (r2 & H2 & _ & E & _).
      assert (r2 = r1) as -> by congruence. rewrite E.
      by apply stages_step_wf.
    + assert (r' = r) as -> by congruence. by apply (HP n s).
  - intros op w l r Hr.
    destruct (step_instance_frame uuid4 op w l r Hr) as (r' & Hr' & _ & E & _).
    exists r'. split; [done |]. rewrite E.
    (* the frame holds of any stage dictionary *)
    intros n Hn. unfold effect_frame.
    destruct op as [p m u | i st p cs e | i n0 md | i n0 md | i n0 e md
                   | i b g c f | i | i s | i]; simpl; try done;
      destruct (targets w i l); simpl; try done.
    + destruct (decide (n0 = n)) as [-> |];
        [rewrite lookup_insert_eq | rewrite lookup_insert_ne by done]; eauto.
    + unfold complete_stage_record.
      destruct (stages r !! n0) as [stage|] eqn:Hs; [| done].
      destruct (decide (n0 = n)) as [-> |];
        [rewrite lookup_insert_eq | rewrite lookup_insert_ne by done]; eauto.
    + unfold fail_stage_record.
      destruct (stages r !! n0) as [stage|] eqn:Hs; [| done].
      destruct (decide (n0 = n)) as [-> |];
        [rewrite lookup_insert_eq | rewrite lookup_insert_ne by done]; eauto.
Qed.

Lemma stage_history_spec_witness :
  stage_wf "generation"
    (mkRunStage "generation" COMPLETED (Some 6%nat) (Some 8%nat) ∅ None).
Proof.
  eapply (proj1 (stage_history_spec pretty)
            [CreateRun "Test ad generation" "image" None;
             StartStage "0" "generation" None;
             FailStage "0" "generation" "boom" None;
             StartStage "0" "generation" None;
             CompleteStage "0" "generation" None] "0" _ "generation" _);
    vm_compute; reflexivity.
Defined.

(** X5. On an existing run, [start_stage] answers [True], writes under
    the stage name a pending record with the start time and the given
    metadata (none: empty), replacing whatever record was there, and
    makes the stage the current one.  The other stage records, and the
    status, progress, error message, retry count and completion time of
    the run, are as before. *)
Theorem start_stage_spec w id run r name md :
  _runs w !! id = Some run →
  deref w run = Some r →
  ∃ w' r',
    start_stage id name md w = (true, w')
    ∧ _runs w' = _runs w
    ∧ deref w' run = Some r'
    ∧ stages r' !! name
      = Some (mkRunStage name PENDING (Some (clock w)) None (default ∅ md)
                None)
    ∧ (∀ n, n ≠ name → stages r' !! n = stages r !! n)
    ∧ current_stage r' = Some name
    ∧ status r' = status r
    ∧ progress r' = progress r
    ∧ error_message r' = error_message r
    ∧ retry_count r' = retry_count r
    ∧ completed_at r' = completed_at r
    ∧ (∀ l, l ≠ run → deref w' l = deref w l).
Proof.
  intros Hid Hr. unfold start_stage. rewrite Hid. simpl.
  eexists _, _. split; [reflexivity |]. split; [reflexivity |].
  split.
  { deref_write. all: unfold deref in Hr; by rewrite lookup_alter_eq, Hr. }
  simpl. split_all; try reflexivity.
  - by rewrite lookup_insert_eq.
  - intros n Hn. by rewrite lookup_insert_ne.
  - deref_other.
Qed.

Lemma start_stage_spec_witness :
  ∃ w' r',
    start_stage "0" "brand_kit" None one_run = (true, w')
    ∧ deref w' 1%positive = Some r'
    ∧ stages r' !! "brand_kit"
      = Some (mkRunStage "brand_kit" PENDING (Some 2%nat) None ∅ None)
    ∧ current_stage r' = Some "brand_kit"
    ∧ status r' = PENDING.
Proof.
  destruct (start_stage_spec one_run "0" 1%positive _ "brand_kit" None
              (proj1 one_run_registered) (proj2 one_run_registered))
    as (w' & r' & H1 & _ & H3 & H4 & _ & H6 & H7 & _).
  exists w', r'. repeat split; assumption.
Defined.

(** X6. A stage that is started and then completed (or failed) on an
    existing run ends with a record that is completed (or failed, with
    the error text as given), keeps the start time of [start_stage],
    has a completion time, and carries the metadata of both calls, a key
    given to both taking the value of the later call.  Completing the
    stage leaves the status of the run as it was. *)
Theorem stage_lifecycle w id run r name md1 md2 err :
  _runs w !! id = Some run →
  deref w run = Some r →
  let w1 := (start_stage id name md1 w).2 in
  (∃ w2 r2,
     complete_stage id name md2 w1 = (true, w2)
     ∧ deref w2 run = Some r2
     ∧ stages r2 !! name
       = Some (mkRunStage name COMPLETED (Some (clock w))
                 (Some (S (S (clock w)))) (default ∅ md2 ∪ default ∅ md1)
                 None)
     ∧ status r2 = status r)
  ∧ (∃ w2 r2,
       fail_stage id name err md2 w1 = (true, w2)
       ∧ deref w2 run = Some r2
       ∧ stages r2 !! name
         = Some (mkRunStage name FAILED (Some (clock w))
                   (Some (S (S (clock w)))) (default ∅ md2 ∪ default ∅ md1)
                   (Some err))
       ∧ status r2 = FAILED
       ∧ error_message r2 = Some err)
  ∧ (∀ k v, default ∅ md2 !! k = Some v →
            (default ∅ md2 ∪ default ∅ md1) !! k = Some v)
  ∧ (∀ k, default ∅ md2 !! k = None →
          (default ∅ md2 ∪ default ∅ md1) !! k = default ∅ md1 !! k).
Proof.
  intros Hid Hr w1.
  assert (∀ m0 : Dict,
            (if Py.truthy_dict md2 then default ∅ md2 ∪ m0 else m0)
            = default ∅ md2 ∪ m0) as Hmerge.
  { intros m0. destruct md2 as [m2|]; simpl; [| by rewrite (left_id_L ∅ (∪))].
    case_bool_decide as E; simpl; [| done].
    rewrite E. by rewrite (left_id_L ∅ (∪)). }
  assert (∃ r1, _runs w1 !! id = Some run ∧ deref w1 run = Some r1
                ∧ clock w1 = S (S (clock w))
                ∧ status r1 = status r
                ∧ stages r1 !! name
                  = Some (mkRunStage name PENDING (Some (clock w)) None
                            (default ∅ md1) None)) as (r1 & Hid1 & Hr1 & Hc & Hs1 & Hst).
  { subst w1. unfold start_stage. rewrite Hid. simpl.
    eexists. split; [done |]. split.
    { deref_write. all: unfold deref in Hr; by rewrite lookup_alter_eq, Hr. }
    simpl. split_all; try done. by rewrite lookup_insert_eq. }
  split_all.
  - unfold complete_stage. rewrite Hid1, Hr1.
    rewrite bool_decide_true by (rewrite Hst; eauto). simpl.
    eexists _, _. split; [reflexivity |]. split.
    { deref_write. all: unfold deref in Hr1; by rewrite lookup_alter_eq, Hr1. }
    simpl. split; [| done].
    unfold complete_stage_record. rewrite Hst, lookup_insert_eq. simpl.
    by rewrite Hmerge, Hc.
  - unfold fail_stage. rewrite Hid1, Hr1.
    rewrite bool_decide_true by (rewrite Hst; eauto). simpl.
    eexists _, _. split; [reflexivity |]. split.
    { deref_write. all: unfold deref in Hr1; by rewrite lookup_alter_eq, Hr1. }
    simpl. split; [| done].
    unfold fail_stage_record. rewrite Hst, lookup_insert_eq. simpl.
    by rewrite Hmerge, Hc.
  - intros k v Hk. by apply lookup_union_Some_l.
  - intros k Hk. by apply lookup_union_r.
Qed.

Lemma stage_lifecycle_witness :
  ∃ w2 r2,
    complete_stage "0" "brand_kit" (Some {["colors" := "2"]})
      (start_stage "0" "brand_kit" (Some {["source" := "site"]}) one_run).2
    = (true, w2)
    ∧ deref w2 1%positive = Some r2
    ∧ stages r2 !! "brand_kit"
      = Some (mkRunStage "brand_kit" COMPLETED (Some 2%nat) (Some 4%nat)
                ({["colors" := "2"]} ∪ {["source" := "site"]}) None)
    ∧ status r2 = PENDING.
Proof.
  destruct (proj1 (stage_lifecycle one_run "0" 1%positive _ "brand_kit"
                     (Some {["source" := "site"]}) (Some {["colors" := "2"]})
                     "" (proj1 one_run_registered) (proj2 one_run_registered)))
    as (w2 & r2 & H1 & H2 & H3 & H4).
  exists w2, r2. repeat split; [exact H1 | exact H2 | exact H3 | exact H4].
Defined.

(** X7. [delete_run] on a registered run answers [True] and unregisters
    it: [get_run] then answers [None] and a second [delete_run] answers
    [False].  The other runs stay registered as they were, and no
    instance is touched, the deleted one included: a reference obtained
    before the deletion still reads the same record. *)
Theorem delete_run_spec w id run :
  _runs w !! id = Some run →
  ∃ w',
    delete_run id w = (true, w')
    ∧ get_run id w' = None
    ∧ delete_run id w' = (false, w')
    ∧ (∀ j, j ≠ id → get_run j w' = get_run j w)
    ∧ (∀ l, deref w' l = deref w l)
    ∧ (∀ st l, l ∈ list_runs st w' →
               ∃ j, j ≠ id ∧ get_run j w = Some l).
Proof.
  intros Hid. unfold delete_run at 1. rewrite Hid.
  eexists. split; [reflexivity |].
  assert (get_run id
            (mkWorld (heap w) (clock w) (draws w) (delete id (_runs w)))
          = None) as Hgone.
  { unfold get_run; simpl. by rewrite lookup_delete_eq. }
  split; [exact Hgone |].
  split; [unfold delete_run; unfold get_run in Hgone; by rewrite Hgone |].
  split; [intros j Hj; unfold get_run; simpl; by rewrite lookup_delete_ne |].
  split; [done |].
  intros st l Hl. apply elem_of_list_runs in Hl as (j & Hj & _).
  simpl in Hj. apply lookup_delete_Some in Hj as [Hne Hj]. by exists j.
Qed.

Lemma delete_run_spec_witness :
  ∃ w',
    delete_run "0" one_run = (true, w')
    ∧ get_run "0" w' = None
    ∧ delete_run "0" w' = (false, w')
    ∧ deref w' 1%positive = deref one_run 1%positive.
Proof.
  destruct (delete_run_spec one_run "0" 1%positive (proj1 one_run_registered))
    as (w' & H1 & H2 & H3 & _ & H5 & _).
  exists w'. repeat split; [exact H1 | exact H2 | exact H3 | apply H5].
Defined.

(** X8. On an existing run, [update_run_data] answers [True], stores each
    result it is given, an empty list or dictionary included, and keeps
    each result for which it is given [None].  Status, progress, stage
    history, error message, retry count and completion time are as
    before. *)
Theorem update_run_data_spec w id run r b g c f :
  _runs w !! id = Some run →
  deref w run = Some r →
  ∃ w' r',
    update_run_data id b g c f w = (true, w')
    ∧ _runs w' = _runs w
    ∧ deref w' run = Some r'
    ∧ brand_kit_data r' = from_option Some (brand_kit_data r) b
    ∧ generated_ads r' = default (generated_ads r) g
    ∧ critique_results r' = from_option Some (critique_results r) c
    ∧ final_ad_path r' = from_option Some (final_ad_path r) f
    ∧ status r' = status r
    ∧ progress r' = progress r
    ∧ stages r' = stages r
    ∧ error_message r' = error_message r
    ∧ retry_count r' = retry_count r
    ∧ completed_at r' = completed_at r
    ∧ (∀ l, l ≠ run → deref w' l = deref w l).
Proof.
  intros Hid Hr. unfold update_run_data. rewrite Hid.
  destruct b, g, c, f; simpl;
    (eexists _, _; split; [reflexivity |]; split; [reflexivity |];
     split; [deref_write |]); simpl;
    split_all; try reflexivity; deref_other.
Qed.

Lemma update_run_data_spec_witness :
  ∃ w' r',
    update_run_data "0" (Some ∅) (Some []) None None
      (update_run_data "0" (Some {["colors" := "2"]})
         (Some ["/ads/0/variation_1.jpg"])
         (Some {["score" := "0.85"]}) None one_run).2 = (true, w')
    ∧ deref w' 1%positive = Some r'
    ∧ brand_kit_data r' = Some ∅
    ∧ generated_ads r' = []
    ∧ critique_results r' = Some {["score" := "0.85"]}
    ∧ status r' = PENDING.
Proof.
  destruct (update_run_data_spec one_run "0" 1%positive _
              (Some {["colors" := "2"]}) (Some ["/ads/0/variation_1.jpg"])
              (Some {["score" := "0.85"]}) None
              (proj1 one_run_registered) (proj2 one_run_registered))
    as (w1 & r1 & H1 & G2 & G3 & G4 & G5 & G6 & _ & G8 & _).
  rewrite H1. simpl.
  destruct (update_run_data_spec w1 "0" 1%positive r1 (Some ∅) (Some [])
              None None)
    as (w' & r' & K1 & _ & K3 & K4 & K5 & K6 & _ & K8 & _).
  - rewrite G2. exact (proj1 one_run_registered).
  - exact G3.
  - exists w', r'. rewrite K4, K5, K6, K8, G6, G8. by repeat split.
Defined.

(** ** Runs do not interfere *)

(** X9. In every world the store can reach, a call changes no run but
    the one it names: the record of any other registered run, read
    through the manager, is the same after the call as before it.  (For
    [create_run], the run it names is the one of the identifier it
    draws.) *)
Theorem runs_isolated (uuid4 : nat → string) ops op id :
  op_run_id op ≠ Some id →
  (op_run_id op = None →
   uuid4 (draws (run_ops uuid4 ops RunManager_init)) ≠ id) →
  run_attr (λ r, r) id (step uuid4 op (run_ops uuid4 ops RunManager_init))
  = run_attr (λ r, r) id (run_ops uuid4 ops RunManager_init).
Proof.
  intros Hop Hnew.
  pose proof (store_inv_reachable uuid4 ops) as Inv.
  set (w := run_ops uuid4 ops RunManager_init) in *.
  assert (_runs (step uuid4 op w) !! id = _runs w !! id) as Hreg.
  { rewrite step_runs.
    destruct op as [p m u | i st p cs e | i n md | i n md | i n e md
                   | i b g c f | i | i s | i]; try done.
    - rewrite lookup_insert_ne; [done |]. by apply Hnew.
    - rewrite lookup_delete_ne; [done |]. simpl in Hop. congruence. }
  unfold run_attr. rewrite Hreg.
  destruct (_runs w !! id) as [l|] eqn:Hl; [| done]. simpl.
  destruct (Inv id l Hl) as (r & Hr & Hid & _).
  rewrite (step_other uuid4 op w l); [done | | by eauto].
  intros i Hi Hil.
  destruct (Inv i l Hil) as (ri & Hri & Hidi & _).
  assert (i = id) by congruence. congruence.
Qed.

Lemma runs_isolated_witness :
  let ops := [CreateRun "Test ad generation" "image" None;
              CreateRun "Second ad, for video" "video" None] in
  run_attr (λ r, r) "1"
    (step pretty (FailStage "0" "generation" "boom" None)
       (run_ops pretty ops RunManager_init))
  = run_attr (λ r, r) "1" (run_ops pretty ops RunManager_init).
Proof.
  intros ops.
  apply (runs_isolated pretty ops (FailStage "0" "generation" "boom" None) "1");
    discriminate.
Defined.

(** ** Listing *)

Lemma NoDup_List_filter {A} (f : A → bool) (l : list A) :
  NoDup l → NoDup (List.filter f l).
Proof.
  induction 1 as [| x l Hx Hl IH]; simpl; [constructor |].
  destruct (f x); [| done].
  constructor; [| done].
  rewrite list_elem_of_In, filter_In, <- list_elem_of_In. tauto.
Qed.

(** X10. In every world the store can reach, [list_runs] without a filter
    lists each registered run once, so its length is the number of
    registered runs, and each listed run appears under exactly one
    status filter, where it also appears once. *)
Theorem list_runs_reachable (uuid4 : nat → string) ops :
  NoDup (list_runs None (run_ops uuid4 ops RunManager_init))
  ∧ length (list_runs None (run_ops uuid4 ops RunManager_init))
    = size (_runs (run_ops uuid4 ops RunManager_init))
  ∧ (∀ st, NoDup (list_runs (Some st) (run_ops uuid4 ops RunManager_init)))
  ∧ (∀ l,
       l ∈ list_runs None (run_ops uuid4 ops RunManager_init) →
       ∃ st,
         l ∈ list_runs (Some st) (run_ops uuid4 ops RunManager_init)
         ∧ ∀ st',
             l ∈ list_runs (Some st') (run_ops uuid4 ops RunManager_init) →
             st' = st).
Proof.
  pose proof (store_inv_reachable uuid4 ops) as Inv.
  set (w := run_ops uuid4 ops RunManager_init) in *.
  assert (NoDup (list_runs None w)) as Hnd.
  { unfold list_runs. apply NoDup_fmap_2_strong; [| apply NoDup_map_to_list].
    intros [i l] [j l'] Hi Hj E. simpl in E. subst l'.
    apply elem_of_map_to_list in Hi, Hj.
    destruct (Inv i l Hi) as (ri & Hri & Hidi & _).
    destruct (Inv j l Hj) as (rj & Hrj & Hidj & _).
    f_equal. congruence. }
  split_all.
  - exact Hnd.
  - unfold list_runs. by rewrite length_fmap, length_map_to_list.
  - intros st. unfold list_runs in *. by apply NoDup_List_filter.
  - intros l Hl. apply elem_of_list_runs in Hl as (id & Hid & _).
    destruct (Inv id l Hid) as (r & Hr & _).
    exists (status r). split.
    + apply elem_of_list_runs. exists id. split; [done |]. by rewrite Hr.
    + intros st' Hl'. apply elem_of_list_runs in Hl' as (j & _ & Hs).
      rewrite Hr in Hs. simpl in Hs. congruence.
Qed.

(** ** Status and result *)

Lemma fail_stage_run w id run r name err md :
  _runs w !! id = Some run →
  deref w run = Some r →
  ∃ r',
    _runs (fail_stage id name err md w).2 = _runs w
    ∧ deref (fail_stage id name err md w).2 run = Some r'
    ∧ run_id r' = run_id r
    ∧ status r' = FAILED
    ∧ error_message r' = Some err
    ∧ progress r' = progress r.
Proof.
  intros Hid Hr. unfold fail_stage. rewrite Hid, Hr.
  destruct (bool_decide (is_Some (stages r !! name))); simpl;
    (eexists; split; [reflexivity |]; split; [deref_write |]); done.
Qed.

(** X11. [get_status] answers 404, with a message that names the
    identifier, for a run the store does not hold.  For a run that
    [fail_stage] has failed it reports the status failed with the error
    text as given and the progress the run had; after [complete_run] with
    success it reports completed, progress 100 and no message; and after
    an [update_status] to a status other than failed it reports that
    status and no message, whatever error message the run carries. *)
Theorem get_status_spec w id :
  (_runs w !! id = None →
   get_status id w
   = inl (HTTPException 404 ("Run with ID '" ++ id ++ "' not found")))
  ∧ (∀ run r name err md,
       _runs w !! id = Some run → deref w run = Some r →
       ∃ resp,
         get_status id (fail_stage id name err md w).2 = inr resp
         ∧ sr_run_id resp = run_id r
         ∧ sr_status resp = FAILED
         ∧ sr_message resp = Some err
         ∧ sr_progress resp = progress r)
  ∧ (∀ run r,
       _runs w !! id = Some run → deref w run = Some r →
       ∃ resp,
         get_status id (complete_run id true w).2 = inr resp
         ∧ sr_status resp = COMPLETED
         ∧ sr_progress resp = 100%Q
         ∧ sr_message resp = None)
  ∧ (∀ run r st p cs e,
       _runs w !! id = Some run → deref w run = Some r →
       st ≠ FAILED →
       ∃ resp,
         get_status id (update_status id st p cs e w).2 = inr resp
         ∧ sr_status resp = st
         ∧ sr_message resp = None).
Proof.
  split_all.
  - intros H. unfold get_status, get_run. by rewrite H.
  - intros run r name err md Hid Hr.
    destruct (fail_stage_run w id run r name err md Hid Hr)
      as (r' & Hreg & Hr' & Hi & Hs & He & Hp).
    unfold get_status, get_run. rewrite Hreg, Hid, Hr'.
    eexists. split; [reflexivity |]. simpl.
    rewrite Hs. rewrite bool_decide_true by done. by split_all.
  - intros run r Hid Hr.
    destruct (step_instance pretty (CompleteRun id true) w run r Hr)
      as (r' & Hr' & Hi & Hs & _ & Hp).
    simpl in Hr'. unfold effect, targets in Hs, Hp.
    rewrite bool_decide_true in Hs, Hp by done. simpl in Hs, Hp.
    pose proof (step_runs pretty (CompleteRun id true) w) as Hreg.
    simpl in Hreg.
    unfold get_status, get_run. rewrite Hreg, Hid, Hr'.
    eexists. split; [reflexivity |]. simpl.
    rewrite Hs. rewrite bool_decide_false by done. by split_all.
  - intros run r st p cs e Hid Hr Hst.
    destruct (step_instance pretty (UpdateStatus id st p cs e) w run r Hr)
      as (r' & Hr' & Hi & Hs & _ & Hp).
    simpl in Hr'. unfold effect, targets in Hs, Hp.
    rewrite bool_decide_true in Hs, Hp by done. simpl in Hs, Hp.
    pose proof (step_runs pretty (UpdateStatus id st p cs e) w) as Hreg.
    simpl in Hreg.
    unfold get_status, get_run. rewrite Hreg, Hid, Hr'.
    eexists. split; [reflexivity |]. simpl.
    rewrite Hs. rewrite bool_decide_false by done. by split_all.
Qed.

Lemma get_status_spec_witness :
  ∃ resp,
    get_status "0" (fail_stage "0" "generation" "backend unavailable" None
                      one_run).2 = inr resp
    ∧ sr_status resp = FAILED
    ∧ sr_message resp = Some "backend unavailable"
    ∧ sr_progress resp = 0%Q.
Proof.
  destruct (proj1 (proj2 (get_status_spec one_run "0")) 1%positive _
              "generation" "backend unavailable" None
              (proj1 one_run_registered) (proj2 one_run_registered))
    as (resp & H1 & _ & H3 & H4 & H5).
  exists resp. repeat split; assumption.
Defined.

Lemma list_runs_reachable_witness :
  ∃ st,
    1%positive ∈ list_runs (Some st) one_run
    ∧ ∀ st', 1%positive ∈ list_runs (Some st') one_run → st' = st.
Proof.
  apply (proj2 (proj2 (proj2
           (list_runs_reachable pretty
              [CreateRun "Test ad generation" "image" None])))).
  apply elem_of_list_runs. exists "0". split; [reflexivity | done].
Defined.

Section ResultProperties.

Variable CritiqueReport : Type.
Variable new_CritiqueReport : Dict → option CritiqueReport.
Variable format_RunStatus : RunStatus → string.

Lemma complete_run_run w id run r success :
  _runs w !! id = Some run →
  deref w run = Some r →
  ∃ r',
    _runs (complete_run id success w).2 = _runs w
    ∧ deref (complete_run id success w).2 run = Some r'
    ∧ run_id r' = run_id r
    ∧ status r' = (if success then COMPLETED else FAILED)
    ∧ completed_at r' = Some (clock w)
    ∧ updated_at r' = S (clock w)
    ∧ retry_count r' = retry_count r
    ∧ critique_results r' = critique_results r.
Proof.
  intros Hid Hr. unfold complete_run. rewrite Hid. simpl.
  eexists. split; [reflexivity |]. split; [deref_write |]. done.
Qed.

(** X12. [get_result] answers 404, with a message that names the
    identifier, for a run the store does not hold, and 400 for a run whose
    status is not completed: a run that [fail_stage] or [complete_run]
    without success has failed has no result.  After [complete_run] with
    success it answers a result with success set, the retry count of the
    run and the completion time [complete_run] recorded.  For a run
    marked completed by [update_status] alone, which has no completion
    time, it answers the last-updated time in its place. *)
Theorem get_result_spec w id :
  (_runs w !! id = None →
   get_result CritiqueReport new_CritiqueReport format_RunStatus id w
   = inl (HTTPException 404 ("Run with ID '" ++ id ++ "' not found")))
  ∧ (∀ run r,
       _runs w !! id = Some run → deref w run = Some r →
       status r ≠ COMPLETED →
       get_result CritiqueReport new_CritiqueReport format_RunStatus id w
       = inl (HTTPException 400
                ("Run " ++ id ++ " is not completed yet. Current status: "
                 ++ format_RunStatus (status r))))
  ∧ (∀ run r name err md,
       _runs w !! id = Some run → deref w run = Some r →
       get_result CritiqueReport new_CritiqueReport format_RunStatus id
         (fail_stage id name err md w).2
       = inl (HTTPException 400
                ("Run " ++ id ++ " is not completed yet. Current status: "
                 ++ format_RunStatus FAILED))
       ∧ get_result CritiqueReport new_CritiqueReport format_RunStatus id
           (complete_run id false w).2
         = inl (HTTPException 400
                  ("Run " ++ id ++ " is not completed yet. Current status: "
                   ++ format_RunStatus FAILED)))
  ∧ (∀ run r,
       _runs w !! id = Some run → deref w run = Some r →
       ∃ resp,
         get_result CritiqueReport new_CritiqueReport format_RunStatus id
           (complete_run id true w).2 = inr resp
         ∧ fr_run_id CritiqueReport resp = run_id r
         ∧ fr_status CritiqueReport resp = COMPLETED
         ∧ fr_success CritiqueReport resp = true
         ∧ fr_retry_count CritiqueReport resp = retry_count r
         ∧ fr_completed_at CritiqueReport resp = clock w)
  ∧ (∀ run r p cs e,
       _runs w !! id = Some run → deref w run = Some r →
       completed_at r = None →
       ∃ resp,
         get_result CritiqueReport new_CritiqueReport format_RunStatus id
           (update_status id COMPLETED p cs e w).2 = inr resp
         ∧ fr_status CritiqueReport resp = COMPLETED
         ∧ fr_completed_at CritiqueReport resp = clock w).
Proof.
  assert (∀ w0 run r,
            _runs w0 !! id = Some run → deref w0 run = Some r →
            status r ≠ COMPLETED →
            get_result CritiqueReport new_CritiqueReport format_RunStatus id w0
            = inl (HTTPException 400
                     ("Run " ++ id
                      ++ " is not completed yet. Current status: "
                      ++ format_RunStatus (status r)))) as Hnot.
  { intros w0 run r Hid Hr Hs. unfold get_result, get_run. rewrite Hid, Hr.
    by rewrite bool_decide_false by done. }
  split_all.
  - intros H. unfold get_result, get_run. by rewrite H.
  - intros run r. apply Hnot.
  - intros run r name err md Hid Hr. split.
    + destruct (fail_stage_run w id run r name err md Hid Hr)
        as (r' & Hreg & Hr' & _ & Hs & _).
      rewrite <- Hs. apply (Hnot _ run); [by rewrite Hreg | done |].
      by rewrite Hs.
    + destruct (complete_run_run w id run r false Hid Hr)
        as (r' & Hreg & Hr' & _ & Hs & _).
      rewrite <- Hs. apply (Hnot _ run); [by rewrite Hreg | done |].
      by rewrite Hs.
  - intros run r Hid Hr.
    destruct (complete_run_run w id run r true Hid Hr)
      as (r' & Hreg & Hr' & Hi & Hs & Hc & _ & Hrc & _).
    unfold get_result, get_run. rewrite Hreg, Hid, Hr'.
    rewrite Hs. rewrite bool_decide_true by done. simpl.
    eexists. split; [reflexivity |]. simpl. rewrite Hc. by split_all.
  - intros run r p cs e Hid Hr Hnone.
    assert (∃ r',
              _runs (update_status id COMPLETED p cs e w).2 = _runs w
              ∧ deref (update_status id COMPLETED p cs e w).2 run = Some r'
              ∧ status r' = COMPLETED
              ∧ completed_at r' = completed_at r
              ∧ updated_at r' = clock w)
      as (r' & Hreg & Hr' & Hs & Hc & Hu).
    { unfold update_status. rewrite Hid.
      destruct p, cs, e; simpl;
        (eexists; split; [reflexivity |]; split; [deref_write |]); done. }
    unfold get_result, get_run. rewrite Hreg, Hid, Hr'.
    rewrite Hs. rewrite bool_decide_true by done. simpl.
    eexists. split; [reflexivity |]. simpl.
    rewrite Hc, Hnone, Hu. by split_all.
Qed.

End ResultProperties.

Lemma get_result_spec_witness :
  get_result unit (λ _, None) (λ _, "pending") "0" one_run
  = inl (HTTPException 400
           "Run 0 is not completed yet. Current status: pending")
  ∧ ∃ resp,
      get_result unit (λ _, None) (λ _, "pending") "0"
        (complete_run "0" true one_run).2 = inr resp
      ∧ fr_success unit resp = true
      ∧ fr_retry_count unit resp = 0
      ∧ fr_completed_at unit resp = 2%nat.
Proof.
  destruct (get_result_spec unit (λ _, None) (λ _, "pending") one_run "0")
    as (_ & H2 & _ & H4 & _).
  split.
  - apply (H2 1%positive _ (proj1 one_run_registered)
             (proj2 one_run_registered)). discriminate.
  - destruct (H4 1%positive _ (proj1 one_run_registered)
                (proj2 one_run_registered))
      as (resp & G1 & _ & _ & G4 & G5 & G6).
    exists resp. repeat split; assumption.
Defined.

(** ** From a request to its status *)

(** X13. A request that passes validation and whose uploads are stored is
    answered with the identifier of a run that the store holds from then
    on: the queued task carries the same identifier, prompt and media
    kind, [get_status] on the identifier answers pending with progress 0,
    no current stage and no message (never 404), and [get_result] answers
    400, the run not being completed. *)
Theorem generated_run_is_pending (uuid4 : nat → string) (UploadFile : Type)
    (save_upload : string → UploadFile → string + string)
    (CritiqueReport : Type) (new_CritiqueReport : Dict → option CritiqueReport)
    (format_RunStatus : RunStatus → string)
    prompt media url logo product w lp pp :
  acceptable prompt media →
  upload_block UploadFile save_upload "logo" logo = inr lp →
  upload_block UploadFile save_upload "product" product = inr pp →
  ∃ rid est w',
    post_generate uuid4 UploadFile save_upload prompt media url logo product w
    = (GenerationResponse rid PENDING est,
       Some (mkTask rid prompt media url lp pp), w')
    ∧ get_status rid w'
      = inr (mkStatusResponse rid PENDING 0 None None (clock w) (S (clock w)))
    ∧ get_result CritiqueReport new_CritiqueReport format_RunStatus rid w'
      = inl (HTTPException 400
               ("Run " ++ rid ++ " is not completed yet. Current status: "
                ++ format_RunStatus PENDING)).
Proof.
  intros (Hs & Hl & Hm) Hlogo Hprod.
  unfold post_generate.
  assert ((Py.len prompt <? 10)%Z || (1000 <? Py.len prompt)%Z = false)
    as ->.
  { apply orb_false_iff. split; [apply Z.ltb_ge | apply Z.ltb_ge; lia].
    pose proof (len_strip prompt). lia. }
  destruct (MediaType_parse media) as [m|] eqn:Hp;
    [| apply MediaType_parse_None in Hp; done].
  apply MediaType_parse_Some in Hp as [<- _].
  apply (validate_inputs_None prompt m) in Hs.
  rewrite (generate_ad_created uuid4 UploadFile save_upload prompt m url
             logo product w lp pp Hs Hlogo Hprod).
  eexists _, _, _. split; [reflexivity |].
  rewrite create_run_eq. simpl.
  unfold get_status, get_result, get_run, deref; simpl.
  by rewrite !lookup_insert_eq.
Qed.

Lemma generated_run_is_pending_witness :
  ∃ rid est w',
    post_generate pretty unit (λ _ _, inl "stored")
      "Nike shoe advertisement" "image" None None None RunManager_init
    = (GenerationResponse rid PENDING est,
       Some (mkTask rid "Nike shoe advertisement" "image" None None None), w')
    ∧ get_status rid w'
      = inr (mkStatusResponse rid PENDING 0 None None 0%nat 1%nat).
Proof.
  destruct (generated_run_is_pending pretty unit (λ _ _, inl "stored")
              unit (λ _, None) (λ _, "pending")
              "Nike shoe advertisement" "image" None None None
              RunManager_init None None)
    as (rid & est & w' & H1 & H2 & _).
  - split; [by vm_compute |]. split; [by vm_compute | by left].
  - reflexivity.
  - reflexivity.
  - exists rid, est, w'. split; [exact H1 | exact H2].
Defined.
